(** * Loc-Bench / SWE-agent conversion tools

    A shallow embedding of [tools/locbench_sweagent/parse_trajectories.py]
    and [tools/locbench_sweagent/prepare_instances.py], and the properties
    their specification states about them.

    Modelling conventions.
    - A Python [str] is a [string]; a character is a code point below 256,
      so [isspace] lists the white space of that range.
    - A value of type [Any] (what [json.loads] returns) is a [pyval].  A
      [dict] is an association list in insertion order, read by its first
      binding of a key.
    - Python [int]s are [Z].
    - Code that can raise returns a [result]; [json.loads], the paths of
      [pathlib] and the user's regular expression are library code and are
      parameters of the sections that use them.  [json.loads] returns a
      value or raises: the [JSONDecodeError] the tools handle, or another
      exception (the [ValueError] of an integer of too many digits, a
      [RecursionError]), which they let through.  A reference decoder
      ([json.loads]) instantiates it in the examples. *)

From Stdlib Require Import String Ascii ZArith List Lia Bool.
From stdpp Require Import base list strings gmap pretty.

Set Warnings "-register-all,-clear-no-such-hyp".
Open Scope string_scope.
Open Scope list_scope.

(** ** Python values and the string methods the tools use *)

Module py.

(** [str.isspace] on one character (also the class [\s] of [re] on [str]
    patterns, and the characters [str.strip] removes). *)
Definition isspace (c : ascii) : bool :=
  let n := nat_of_ascii c in
  (((9 <=? n) && (n <=? 13)) || ((28 <=? n) && (n <=? 32))
   || (n =? 133) || (n =? 160))%nat.

Fixpoint lstrip (s : string) : string :=
  match s with
  | String c s' => if isspace c then lstrip s' else s
  | EmptyString => EmptyString
  end.

Fixpoint rstrip (s : string) : string :=
  match s with
  | String c s' =>
      match rstrip s' with
      | EmptyString => if isspace c then EmptyString else String c EmptyString
      | r => String c r
      end
  | EmptyString => EmptyString
  end.

(** [s.strip()] *)
Definition strip (s : string) : string := rstrip (lstrip s).

(** [not s] for a [str] *)
Definition str_empty (s : string) : bool :=
  match s with EmptyString => true | String _ _ => false end.

(** [sep in s] for a one-character [sep] *)
Fixpoint contains (sep : ascii) (s : string) : bool :=
  match s with
  | String c s' => if Ascii.eqb c sep then true else contains sep s'
  | EmptyString => false
  end.

(** [s.split(sep, 1)]: one element when [sep] does not occur, two
    otherwise. *)
Fixpoint split1 (sep : ascii) (s : string) : list string :=
  match s with
  | String c s' =>
      if Ascii.eqb c sep then [EmptyString; s']
      else match split1 sep s' with
           | h :: t => String c h :: t
           | [] => [String c EmptyString]
           end
  | EmptyString => [EmptyString]
  end.

(** [s.split(sep)] *)
Fixpoint split (sep : ascii) (s : string) : list string :=
  match s with
  | String c s' =>
      if Ascii.eqb c sep then EmptyString :: split sep s'
      else match split sep s' with
           | h :: t => String c h :: t
           | [] => [String c EmptyString]
           end
  | EmptyString => [EmptyString]
  end.

(** [s.replace(old, new)] for one-character [old] and [new] *)
Fixpoint replace (old new : ascii) (s : string) : string :=
  match s with
  | String c s' => String (if Ascii.eqb c old then new else c) (replace old new s')
  | EmptyString => EmptyString
  end.

(** The texts of the examples are written with an apostrophe where the
    text has a double quote. *)
Definition js (s : string) : string := replace "'" "034" s.

(** [sep.join(parts)] *)
Fixpoint join (sep : string) (parts : list string) : string :=
  match parts with
  | [] => EmptyString
  | [p] => p
  | p :: ps => p +:+ sep +:+ join sep ps
  end.

(** Values of type [Any].  Of a [float] the tools observe only its type and
    its truth value, which is what [PFloat] keeps. *)
Inductive pyval : Type :=
| PNone
| PBool (b : bool)
| PInt (n : Z)
| PFloat (nonzero : bool)
| PStr (s : string)
| PList (items : list pyval)
| PDict (entries : list (string * pyval)).

Abbreviation pydict := (list (string * pyval)).

(** [bool(v)] *)
Definition truthy (v : pyval) : bool :=
  match v with
  | PNone => false
  | PBool b => b
  | PInt n => negb (n =? 0)%Z
  | PFloat nz => nz
  | PStr s => negb (str_empty s)
  | PList l => match l with [] => false | _ => true end
  | PDict d => match d with [] => false | _ => true end
  end.

(** [key in d] *)
Fixpoint dict_has (d : pydict) (key : string) : bool :=
  match d with
  | (k, _) :: d' => if String.eqb k key then true else dict_has d' key
  | [] => false
  end.

(** [d.get(key, default)] *)
Fixpoint dict_get_or (d : pydict) (key : string) (default : pyval) : pyval :=
  match d with
  | (k, v) :: d' => if String.eqb k key then v else dict_get_or d' key default
  | [] => default
  end.

(** [d.get(key)] *)
Definition dict_get (d : pydict) (key : string) : pyval :=
  dict_get_or d key PNone.

(** [d[key] = v] *)
Fixpoint dict_set (d : pydict) (key : string) (v : pyval) : pydict :=
  match d with
  | (k, w) :: d' =>
      if String.eqb k key then (k, v) :: d' else (k, w) :: dict_set d' key v
  | [] => [(key, v)]
  end.

(** [a or b] *)
Definition por (a b : pyval) : pyval := if truthy a then a else b.

(** The exceptions the tools can raise or meet.  [JSONDecodeError] is
    the one [json.loads] raises on a text that is not JSON; the tools name
    it in their handlers. *)
Inductive exn : Type :=
| TypeError
| AttributeError
| ValueError (msg : string)
| PatternError
| JSONDecodeError
| RecursionError.

Inductive result (A : Type) : Type :=
| Ok (a : A)
| Raise (e : exn).
Arguments Ok {A} a.
Arguments Raise {A} e.

Definition bind {A B : Type} (m : result A) (k : A -> result B) : result B :=
  match m with
  | Ok a => k a
  | Raise e => Raise e
  end.

(** What the handler [except json.JSONDecodeError] makes of a call of
    [json.loads]: the value it returned, [None] when it raised the
    exception the handler names; any other exception goes through. *)
Definition catch_decode_error (loaded : result pyval) : result (option pyval) :=
  match loaded with
  | Ok v => Ok (Some v)
  | Raise JSONDecodeError => Ok None
  | Raise e => Raise e
  end.

(** [v.get(key)] on a value that need not be a [dict]: only a [dict] has
    the method. *)
Definition get (v : pyval) (key : string) : result pyval :=
  match v with
  | PDict d => Ok (dict_get d key)
  | _ => Raise AttributeError
  end.

End py.

Notation "'let*' x ':=' m 'in' k" := (py.bind m (fun x => k))
  (at level 10, x name, m at level 100, k at level 200, only parsing).

(** ** Literals of regular expressions *)

Module re.

Definition lower (c : ascii) : ascii :=
  let n := nat_of_ascii c in
  if ((65 <=? n) && (n <=? 90))%nat then ascii_of_nat (n + 32) else c.

Definition char_eq (ignore_case : bool) (a b : ascii) : bool :=
  if ignore_case then Ascii.eqb (lower a) (lower b) else Ascii.eqb a b.

(** A literal at the head of [s]; the rest of [s] when it is there. *)
Fixpoint literal (ignore_case : bool) (p s : string) : option string :=
  match p, s with
  | EmptyString, _ => Some s
  | String a p', String b s' =>
      if char_eq ignore_case a b then literal ignore_case p' s' else None
  | String _ _, EmptyString => None
  end.

End re.

(** ** The pattern [JSON_CODE_BLOCK_RE]

    [re.compile(r"```(?:json)?\s*(.*?)```", re.IGNORECASE | re.DOTALL)],
    matched the way the backtracking engine of [re] does: each quantifier
    tries its preferred number of repetitions first and gives way when the
    rest of the pattern fails. *)

Module JSON_CODE_BLOCK_RE.

Definition fence : string := "```".

(** [(.*?)```]: the shortest run of characters (any, under DOTALL) that the
    fence follows.  The result is group 1 and the number of characters
    consumed, the fence included. *)
Fixpoint lazy_group (s : string) : option (string * nat) :=
  match re.literal true fence s with
  | Some _ => Some (EmptyString, 3%nat)
  | None =>
      match s with
      | String c s' =>
          match lazy_group s' with
          | Some (g, n) => Some (String c g, S n)
          | None => None
          end
      | EmptyString => None
      end
  end.

(** [\s*(.*?)```]: as many white-space characters as possible, one fewer
    each time the rest fails. *)
Fixpoint spaces_group (s : string) : option (string * nat) :=
  match s with
  | String c s' =>
      if py.isspace c then
        match spaces_group s' with
        | Some (g, n) => Some (g, S n)
        | None => lazy_group s
        end
      else lazy_group s
  | EmptyString => lazy_group s
  end.

(** [(?:json)?\s*(.*?)```]: with the tag first, without it next. *)
Definition tag_group (s : string) : option (string * nat) :=
  match re.literal true "json" s with
  | Some s' =>
      match spaces_group s' with
      | Some (g, n) => Some (g, (4 + n)%nat)
      | None => spaces_group s
      end
  | None => spaces_group s
  end.

(** A match of the whole pattern at the head of [s]: group 1 and the
    length of the match. *)
Definition match_at (s : string) : option (string * nat) :=
  match re.literal true fence s with
  | Some s' =>
      match tag_group s' with
      | Some (g, n) => Some (g, (3 + n)%nat)
      | None => None
      end
  | None => None
  end.

(** [JSON_CODE_BLOCK_RE.finditer(text)], as the list of [match.group(1)]:
    the search tries every start position from left to right and resumes
    where the previous match ended; [skip] counts the characters still
    inside the previous match. *)
Fixpoint finditer_from (skip : nat) (s : string) : list string :=
  match skip with
  | S k =>
      match s with
      | String _ s' => finditer_from k s'
      | EmptyString => []
      end
  | O =>
      match s with
      | String _ s' =>
          match match_at s with
          | Some (g, n) => g :: finditer_from (Nat.pred n) s'
          | None => finditer_from 0 s'
          end
      | EmptyString => []
      end
  end.

Definition finditer (text : string) : list string := finditer_from 0 text.

End JSON_CODE_BLOCK_RE.

(** ** A reference decoder for [json.loads]

    The decoder of Python's [json] module on the 8-bit strings of this
    model: objects, arrays, strings with their escapes, numbers and the
    literals.  An integer of more than 4300 digits raises the [ValueError]
    of [int]; a number with a fraction or an exponent is a [float], zero
    when it rounds to zero.  An escape above code point 255 names a
    character these strings do not have: such a text is outside the model
    and the decoder is not meant for it.  Nesting is not bounded here: the
    [RecursionError] of a deep nesting depends on the settings of the
    interpreter, and only [json_loads] as a parameter stands for it.  The
    decoder serves as the instance of [json_loads] in the examples; the
    properties below hold for every [json_loads]. *)

Module json.
Import py.

Definition is_ws (c : ascii) : bool :=
  let n := nat_of_ascii c in
  ((n =? 32) || (n =? 9) || (n =? 10) || (n =? 13))%nat.

Fixpoint skip_ws (s : string) : string :=
  match s with
  | String c s' => if is_ws c then skip_ws s' else s
  | EmptyString => EmptyString
  end.

Definition is_digit (c : ascii) : bool :=
  let n := nat_of_ascii c in ((48 <=? n) && (n <=? 57))%nat.

Definition hex_val (c : ascii) : option nat :=
  let n := nat_of_ascii c in
  if ((48 <=? n) && (n <=? 57))%nat then Some (n - 48)%nat
  else if ((97 <=? n) && (n <=? 102))%nat then Some (n - 87)%nat
  else if ((65 <=? n) && (n <=? 70))%nat then Some (n - 55)%nat
  else None.

Definition hex4 (a b c d : ascii) : option nat :=
  match hex_val a, hex_val b, hex_val c, hex_val d with
  | Some x, Some y, Some z, Some w => Some (((x * 16 + y) * 16 + z) * 16 + w)%nat
  | _, _, _, _ => None
  end.

Definition escape (c : ascii) : option ascii :=
  match c with
  | "034"%char => Some "034"%char
  | "\"%char => Some "\"%char
  | "/"%char => Some "/"%char
  | "b"%char => Some (ascii_of_nat 8)
  | "f"%char => Some (ascii_of_nat 12)
  | "n"%char => Some (ascii_of_nat 10)
  | "r"%char => Some (ascii_of_nat 13)
  | "t"%char => Some (ascii_of_nat 9)
  | _ => None
  end.

Definition cons_fst (c : ascii) (r : option (string * string)) :
  option (string * string) :=
  match r with
  | Some (str, rest) => Some (String c str, rest)
  | None => None
  end.

(** The body of a string, after its opening quote (the character of code
    34, written ["034"]): the decoded string and what follows the closing
    quote. *)
Fixpoint scan_string (s : string) : option (string * string) :=
  match s with
  | EmptyString => None
  | String c r =>
      if Ascii.eqb c "034" then Some (EmptyString, r)
      else if Ascii.eqb c "\" then
        match r with
        | String "u" (String h1 (String h2 (String h3 (String h4 r')))) =>
            match hex4 h1 h2 h3 h4 with
            | Some n =>
                if (n <? 256)%nat then cons_fst (ascii_of_nat n) (scan_string r')
                else None
            | None => None
            end
        | String e r' =>
            match escape e with
            | Some c' => cons_fst c' (scan_string r')
            | None => None
            end
        | EmptyString => None
        end
      else if (nat_of_ascii c <? 32)%nat then None
      else cons_fst c (scan_string r)
  end.

Fixpoint take_digits (s : string) : string * string :=
  match s with
  | String c s' =>
      if is_digit c then
        let '(ds, rest) := take_digits s' in (String c ds, rest)
      else (EmptyString, s)
  | EmptyString => (EmptyString, EmptyString)
  end.

Fixpoint digits_value (acc : Z) (ds : string) : Z :=
  match ds with
  | String c ds' => digits_value (10 * acc + Z.of_nat (nat_of_ascii c - 48)) ds'
  | EmptyString => acc
  end.

(** The integer part of a number: [0] or a digit from 1 to 9 and digits. *)
Definition int_part (s : string) : option (string * string) :=
  match s with
  | String c s' =>
      if Ascii.eqb c "0" then Some ("0", s')
      else if is_digit c then
        let '(ds, rest) := take_digits s' in Some (String c ds, rest)
      else None
  | EmptyString => None
  end.

(** An optional [.digits] *)
Definition frac_part (s : string) : option (string * string) :=
  match s with
  | String "." s' =>
      match take_digits s' with
      | (String d ds, rest) => Some (String d ds, rest)
      | (EmptyString, _) => None
      end
  | _ => None
  end.

(** An optional exponent: its value and what follows it. *)
Definition exp_part (s : string) : option (Z * string) :=
  match s with
  | String c s' =>
      if Ascii.eqb c "e" || Ascii.eqb c "E" then
        let '(neg, s'') :=
          match s' with
          | String "+" t => (false, t)
          | String "-" t => (true, t)
          | _ => (false, s')
          end in
        match take_digits s'' with
        | (String d ds, rest) =>
            let e := digits_value 0 (String d ds) in
            Some (if neg then (- e)%Z else e, rest)
        | (EmptyString, _) => None
        end
      else None
  | EmptyString => None
  end.

(** [float(text) != 0.0] for the decimal [m * 10 ^ e] with [0 <= m]: the
    nearest double is zero when the value is at most [2 ^ -1075], half the
    least double above zero. *)
Definition float_nonzero (m e : Z) : bool :=
  if (m =? 0)%Z then false
  else if (0 <=? e)%Z then true
  else (10 ^ (- e) <? m * 2 ^ 1075)%Z.

(** [sys.int_info.default_max_str_digits], and the [ValueError] of [int]
    on a longer text. *)
Definition max_str_digits : nat := 4300.

Definition int_too_long (digits : nat) : exn :=
  ValueError ("Exceeds the limit (4300 digits) for integer string conversion: value has "
              +:+ pretty digits
              +:+ " digits; use sys.set_int_max_str_digits() to increase the limit").

(** A number at the head of [s], [None] when there is none: a [float]
    when it has a fraction or an exponent, an [int] otherwise. *)
Definition scan_number (s : string) : option (result (pyval * string)) :=
  let '(neg, s1) :=
    match s with
    | String "-" t => (true, t)
    | _ => (false, s)
    end in
  match int_part s1 with
  | None => None
  | Some (ds, r1) =>
      let n := digits_value 0 ds in
      match frac_part r1 with
      | Some (fs, r2) =>
          let m := digits_value n fs in
          let scale := (- Z.of_nat (String.length fs))%Z in
          match exp_part r2 with
          | Some (e, r3) => Some (Ok (PFloat (float_nonzero m (e + scale)), r3))
          | None => Some (Ok (PFloat (float_nonzero m scale), r2))
          end
      | None =>
          match exp_part r1 with
          | Some (e, r3) => Some (Ok (PFloat (float_nonzero n e), r3))
          | None =>
              if (max_str_digits <? String.length ds)%nat
              then Some (Raise (int_too_long (String.length ds)))
              else Some (Ok (PInt (if neg then (- n)%Z else n), r1))
          end
      end
  end.

Definition scan_literal (s : string) : result (pyval * string) :=
  match re.literal false "null" s with
  | Some r => Ok (PNone, r)
  | None =>
  match re.literal false "true" s with
  | Some r => Ok (PBool true, r)
  | None =>
  match re.literal false "false" s with
  | Some r => Ok (PBool false, r)
  | None =>
  match scan_number s with
  | Some r => r
  | None =>
  match re.literal false "NaN" s with
  | Some r => Ok (PFloat true, r)
  | None =>
  match re.literal false "Infinity" s with
  | Some r => Ok (PFloat true, r)
  | None =>
  match re.literal false "-Infinity" s with
  | Some r => Ok (PFloat true, r)
  | None => Raise JSONDecodeError
  end end end end end end end.

(** Values, the members of an object and the items of an array.  [fuel]
    bounds the chain of calls; every call consumes a character, so the
    length of the text is enough. *)
Fixpoint scan_value (fuel : nat) (s : string) : result (pyval * string) :=
  match fuel with
  | O => Raise JSONDecodeError
  | S f =>
      match s with
      | String "034" r =>
          match scan_string r with
          | Some (str, r') => Ok (PStr str, r')
          | None => Raise JSONDecodeError
          end
      | String "{" r =>
          match skip_ws r with
          | String "}" r' => Ok (PDict [], r')
          | r1 => scan_members f r1 []
          end
      | String "[" r =>
          match skip_ws r with
          | String "]" r' => Ok (PList [], r')
          | r1 => scan_items f r1 []
          end
      | _ => scan_literal s
      end
  end
with scan_members (fuel : nat) (s : string) (acc : pydict) :
  result (pyval * string) :=
  match fuel with
  | O => Raise JSONDecodeError
  | S f =>
      match s with
      | String "034" r =>
          match scan_string r with
          | Some (key, r1) =>
              match skip_ws r1 with
              | String ":" r2 =>
                  match scan_value f (skip_ws r2) with
                  | Ok (v, r3) =>
                      let acc' := dict_set acc key v in
                      match skip_ws r3 with
                      | String "}" r4 => Ok (PDict acc', r4)
                      | String "," r4 => scan_members f (skip_ws r4) acc'
                      | _ => Raise JSONDecodeError
                      end
                  | Raise e => Raise e
                  end
              | _ => Raise JSONDecodeError
              end
          | None => Raise JSONDecodeError
          end
      | _ => Raise JSONDecodeError
      end
  end
with scan_items (fuel : nat) (s : string) (acc : list pyval) :
  result (pyval * string) :=
  match fuel with
  | O => Raise JSONDecodeError
  | S f =>
      match scan_value f s with
      | Ok (v, r1) =>
          match skip_ws r1 with
          | String "]" r2 => Ok (PList (acc ++ [v]), r2)
          | String "," r2 => scan_items f (skip_ws r2) (acc ++ [v])
          | _ => Raise JSONDecodeError
          end
      | Raise e => Raise e
      end
  end.

(** [json.loads(s)]: the value, [JSONDecodeError] on a text that is not
    JSON, the [ValueError] of an integer that is too long. *)
Definition loads (s : string) : result pyval :=
  match scan_value (S (String.length s)) (skip_ws s) with
  | Ok (v, rest) =>
      match skip_ws rest with
      | EmptyString => Ok v
      | String _ _ => Raise JSONDecodeError
      end
  | Raise e => Raise e
  end.

End json.

(** ** [parse_trajectories.py] *)

Module parse_trajectories.
Import py.

(** One iteration of the loop of [normalize_list] on [(result, seen)]. *)
Definition normalize_item (st : list string * gset string) (item : pyval) :
  list string * gset string :=
  let '(result, seen) := st in
  match item with
  | PStr s =>
      let cleaned := strip s in
      if str_empty cleaned || bool_decide (cleaned ∈ seen) then st
      else (result ++ [cleaned], {[cleaned]} ∪ seen)
  | _ => st
  end.

Definition normalize_list (value : pyval) : list string :=
  if negb (truthy value) then []
  else
    let items :=
      match value with
      | PList l => l
      | _ => [value]
      end in
    fst (fold_left normalize_item items ([], ∅)).

(** The inner loop of [_iter_json_substrings] from [start]: [s] is
    [text[idx:]], the result is [text[start : idx + 1]] at the first closing
    brace that brings [depth] back to zero. *)
Fixpoint scan_braces (depth : Z) (s : string) : option string :=
  match s with
  | String c s' =>
      if Ascii.eqb c "{" then
        option_map (String c) (scan_braces (depth + 1) s')
      else if Ascii.eqb c "}" then
        let depth := (depth - 1)%Z in
        if (depth =? 0)%Z then Some (String c EmptyString)
        else option_map (String c) (scan_braces depth s')
      else option_map (String c) (scan_braces depth s')
  | EmptyString => None
  end.

(** The substrings the generator yields, in the order it yields them:
    [text] here is the suffix at the current index, a start when its first
    character is an opening brace. *)
Fixpoint _iter_json_substrings (text : string) : list string :=
  match text with
  | String c rest =>
      (if Ascii.eqb c "{" then
         match scan_braces 0 text with
         | Some sub => [sub]
         | None => []
         end
       else [])
      ++ _iter_json_substrings rest
  | EmptyString => []
  end.

(** One iteration of the loop of [entities_to_modules] on
    [(modules, seen)]. *)
Definition module_of_entity (st : list string * gset string) (entity : string) :
  list string * gset string :=
  let '(modules, seen) := st in
  if negb (contains ":" entity) then st
  else
    match split1 ":" entity with
    | [file_path; name] =>
        let module_name := hd EmptyString (split "." name) in
        let module_id :=
          if negb (str_empty module_name)
          then file_path +:+ ":" +:+ module_name
          else file_path in
        if bool_decide (module_id ∈ seen) then st
        else (modules ++ [module_id], {[module_id]} ∪ seen)
    | _ => st
    end.

Definition entities_to_modules (found_entities : list string) : list string :=
  fst (fold_left module_of_entity found_entities ([], ∅)).

Definition build_meta (record : pydict) : pydict :=
  fold_left
    (fun meta key =>
       if dict_has record key then dict_set meta key (dict_get record key)
       else meta)
    ["repo"; "base_commit"; "problem_statement"; "patch"; "test_patch"] [].

Record output_record : Type := {
  instance_id : string;
  found_files : list string;
  found_modules : list string;
  found_entities : list string;
  raw_output_loc : list pyval;
  meta_data : pydict;
}.

(** Lines 196 to 202 of [main]: the three lists of a payload. *)
Definition found_lists (payload : pydict) :
  list string * list string * list string :=
  let found_files := normalize_list (dict_get payload "found_files") in
  let found_entities := normalize_list (dict_get payload "found_entities") in
  let found_files :=
    match found_files, found_entities with
    | [], _ :: _ =>
        normalize_list
          (PList (map (fun item => PStr (hd EmptyString (split1 ":" item)))
                      (List.filter (contains ":") found_entities)))
    | _, _ => found_files
    end in
  let found_modules := normalize_list (dict_get payload "found_modules") in
  let found_modules :=
    match found_modules, found_entities with
    | [], _ :: _ => entities_to_modules found_entities
    | _, _ => found_modules
    end in
  (found_files, found_modules, found_entities).

(** [reversed(trajectory)] for a value of any type: a list gives its
    items, a [str] its characters, a [dict] its keys, anything else has no
    reverse iterator. *)
Definition reversed (v : pyval) : result (list pyval) :=
  match v with
  | PList l => Ok (rev l)
  | PStr s =>
      Ok (rev (map (fun c => PStr (String c EmptyString)) (list_ascii_of_string s)))
  | PDict d => Ok (rev (map (fun kv => PStr (fst kv)) d))
  | _ => Raise TypeError
  end.

Section with_json.

(** [json.loads] on a [str]: the value it returns or the exception it
    raises. *)
Variable json_loads : string -> result pyval.

Definition _try_load_json (candidate : string) : result (option pydict) :=
  let* loaded := catch_decode_error (json_loads candidate) in
  match loaded with
  | Some (PDict payload) => Ok (Some payload)
  | _ => Ok None
  end.

(** [for candidate in candidates: ... return payload, candidate] *)
Fixpoint first_payload (candidates : list string) :
  result (option (pydict * string)) :=
  match candidates with
  | candidate :: rest =>
      let* payload := _try_load_json candidate in
      match payload with
      | Some payload => Ok (Some (payload, candidate))
      | None => first_payload rest
      end
  | [] => Ok None
  end.

(** The candidates of the fenced blocks: [match.group(1).strip()] when it
    is not empty. *)
Definition fenced_candidates (text : string) : list string :=
  List.filter (fun candidate => negb (str_empty candidate))
              (map strip (JSON_CODE_BLOCK_RE.finditer text)).

Definition extract_json_payload (text : string) :
  result (option pydict * option string) :=
  if str_empty text then Ok (None, None)
  else
    let candidates := fenced_candidates text in
    let candidates :=
      match candidates with
      | [] => [strip text]
      | _ :: _ => candidates
      end in
    let* found := first_payload candidates in
    match found with
    | Some (payload, candidate) => Ok (Some payload, Some candidate)
    | None =>
        let* found := first_payload (_iter_json_substrings text) in
        match found with
        | Some (payload, candidate) => Ok (Some payload, Some candidate)
        | None => Ok (None, None)
        end
    end.

(** The loop over [reversed(trajectory)] of [main]: the payload of the
    first step that has one, with that step's response.  A step that is not
    a [dict] has no [get]; a response that is neither false nor a [str]
    reaches [finditer], which refuses it. *)
Fixpoint find_payload (steps : list pyval) : result (option (pydict * pyval)) :=
  match steps with
  | step :: rest =>
      let* r := get step "response" in
      let response := por r (PStr EmptyString) in
      match response with
      | PStr text =>
          let* extracted := extract_json_payload text in
          match extracted with
          | (Some parsed, _) => Ok (Some (parsed, response))
          | (None, _) => find_payload rest
          end
      | _ => Raise TypeError
      end
  | [] => Ok None
  end.

(** Lines 181 to 194 of [main]: the payload, the raw response and whether
    the payload is missing.  When the loop ends without a payload the
    trajectory is a list or is empty, and the head of its reverse is
    [trajectory[-1]]. *)
Definition select_payload (trajectory : pyval) : result (pydict * pyval * bool) :=
  let* steps := reversed trajectory in
  let* found := find_payload steps in
  match found with
  | Some (payload, raw_response) => Ok (payload, raw_response, false)
  | None =>
      let* raw_response :=
        match steps with
        | last_step :: _ => get last_step "response"
        | [] => Ok (PStr EmptyString)
        end in
      Ok ([], raw_response, true)
  end.

(** Lines 180 to 211 of [main]: the record of one trajectory file. *)
Definition convert (stem : string) (bench_record : pydict) (traj_data : pyval) :
  result (output_record * bool) :=
  let* trajectory :=
    match traj_data with
    | PDict d => Ok (dict_get_or d "trajectory" (PList []))
    | _ => Raise AttributeError
    end in
  let* sel := select_payload trajectory in
  let '(payload, raw_response, missing) := sel in
  let '(files, modules, entities) := found_lists payload in
  Ok ({| instance_id := stem;
         found_files := files;
         found_modules := modules;
         found_entities := entities;
         raw_output_loc := if truthy raw_response then [raw_response] else [];
         meta_data := build_meta bench_record |}, missing).

(** [load_jsonl]: the decoded lines that are not blank, or the
    [ValueError] of the first line that does not decode. *)
Fixpoint load_jsonl_from (path : string) (line_num : Z) (lines : list string) :
  result (list pyval) :=
  match lines with
  | line :: rest =>
      let line := strip line in
      if str_empty line then load_jsonl_from path (line_num + 1) rest
      else
        let* loaded := catch_decode_error (json_loads line) in
        match loaded with
        | Some v =>
            let* data := load_jsonl_from path (line_num + 1) rest in
            Ok (v :: data)
        | None =>
            Raise (ValueError ("Invalid JSON on line " +:+ pretty line_num
                               +:+ " of " +:+ path))
        end
  | [] => Ok []
  end.

Definition load_jsonl (path : string) (lines : list string) : result (list pyval) :=
  load_jsonl_from path 1 lines.

(** [{item.get("instance_id"): item for item in ...}], read only at the
    stems of files, which are [str]: a key of another type is equal to no
    stem and is left out; a list or a [dict] cannot be a key. *)
Fixpoint bench_index (data : list pyval) (acc : gmap string pydict) :
  result (gmap string pydict) :=
  match data with
  | item :: rest =>
      match item with
      | PDict d =>
          match dict_get d "instance_id" with
          | PStr key => bench_index rest (<[key := d]> acc)
          | PList _ | PDict _ => Raise TypeError
          | _ => bench_index rest acc
          end
      | _ => Raise AttributeError
      end
  | [] => Ok acc
  end.

(** A [.traj] file: its path, the stem of its name and its text. *)
Record traj_file : Type := {
  traj_path : string;
  traj_stem : string;
  traj_text : string;
}.

(** What a run leaves behind: the records written to the output file
    ([None] when the file was not opened), the lines on the standard error
    and output streams, and the exit code or the exception that ended the
    run. *)
Record run : Type := {
  written : option (list output_record);
  stderr : list string;
  stdout : list string;
  exit : result Z;
}.

(** The loop over the trajectory files, on the records written, the
    number of missing payloads and the diagnostics so far. *)
Fixpoint convert_files (bench_data : gmap string pydict) (files : list traj_file)
  (out : list output_record) (missing_payload : Z) (err : list string) :
  list output_record * Z * list string * option exn :=
  match files with
  | f :: rest =>
      match bench_data !! traj_stem f with
      | None => convert_files bench_data rest out missing_payload err
      | Some bench_record =>
          match catch_decode_error (json_loads (traj_text f)) with
          | Raise e => (out, missing_payload, err, Some e)
          | Ok None =>
              convert_files bench_data rest out missing_payload
                (err ++ ["Skipping invalid JSON: " +:+ traj_path f])
          | Ok (Some traj_data) =>
              match convert (traj_stem f) bench_record traj_data with
              | Ok (rec, missing) =>
                  convert_files bench_data rest (out ++ [rec])
                    (if missing then missing_payload + 1 else missing_payload)
                    err
              | Raise e => (out, missing_payload, err, Some e)
              end
          end
      end
  | [] => (out, missing_payload, err, None)
  end.

(** [main], given what the file system holds: whether the two input paths
    exist, the lines of the dataset and the [.traj] files below the
    directory in the order of their sorted paths. *)
Definition main (traj_dir dataset output : string)
  (traj_dir_exists dataset_exists : bool)
  (dataset_lines : list string) (traj_files : list traj_file) : run :=
  if negb traj_dir_exists then
    {| written := None;
       stderr := ["Trajectory directory not found: " +:+ traj_dir];
       stdout := []; exit := Ok 2%Z |}
  else if negb dataset_exists then
    {| written := None;
       stderr := ["Dataset not found: " +:+ dataset];
       stdout := []; exit := Ok 2%Z |}
  else
    match (let* data := load_jsonl dataset dataset_lines in
           bench_index data ∅) with
    | Raise e => {| written := None; stderr := []; stdout := []; exit := Raise e |}
    | Ok bench_data =>
        match traj_files with
        | [] =>
            {| written := None;
               stderr := ["No .traj files found under " +:+ traj_dir];
               stdout := []; exit := Ok 3%Z |}
        | _ :: _ =>
            match convert_files bench_data traj_files [] 0 [] with
            | (out, _, err, Some e) =>
                {| written := Some out; stderr := err; stdout := [];
                   exit := Raise e |}
            | (out, missing_payload, err, None) =>
                {| written := Some out;
                   stderr :=
                     err ++
                     (if (missing_payload =? 0)%Z then []
                      else ["Warning: " +:+ pretty missing_payload
                            +:+ " instances had no JSON payload."]);
                   stdout := ["Wrote loc outputs to " +:+ output];
                   exit := Ok 0%Z |}
            end
        end
    end.

End with_json.

End parse_trajectories.

(** ** [prepare_instances.py] *)

Module prepare_instances.
Import py.

Record args : Type := {
  dataset : string;
  repo_root : string;
  output : string;
  image_name : string;
  filter : option string;
  limit : option Z;
  skip_missing : bool;
}.

(** A Task Instance, the object [main] writes on one line; the three last
    fields are its [extra_fields]. *)
Record instance : Type := {
  inst_image_name : string;
  problem_statement : pyval;
  instance_id : pyval;
  repo_name : string;
  base_commit : pyval;
  extra_repo_slug : string;
  extra_repo_path : string;
  extra_base_commit : pyval;
}.

(** The variables of the loop of [main]: the lines written and the two
    counters. *)
Record state : Type := {
  out : list instance;
  missing_repos : list string;
  count : Z;
}.

(** How an iteration ends: it falls through or [continue]s, it [break]s,
    or it raises. *)
Inductive control : Type :=
| Next (st : state)
| Break (st : state)
| Fail (e : exn).

Record run : Type := {
  written : option (list instance);
  stderr : list string;
  stdout : list string;
  exit : result Z;
}.

Section with_files.

(** [json.loads] on a [str]: the value it returns or the exception it
    raises. *)
Variable json_loads : string -> result pyval.

(** [root / name] of [pathlib], and [path.exists()]. *)
Variable path_join : string -> string -> string.
Variable path_exists : string -> bool.

(** [re.compile(pattern)]: the [search] of the compiled pattern, [None]
    when the pattern does not compile. *)
Variable re_compile : string -> option (string -> bool).

(** The generator [load_jsonl]: what it yields, up to and with the
    exception that ends it, which the loop meets when it asks for that
    item: the [ValueError] of the first line that does not decode, or what
    else [json.loads] raises. *)
Fixpoint load_jsonl_from (path : string) (line_num : Z) (lines : list string) :
  list (result pyval) :=
  match lines with
  | line :: rest =>
      let line := strip line in
      if str_empty line then load_jsonl_from path (line_num + 1) rest
      else
        match catch_decode_error (json_loads line) with
        | Ok (Some v) => Ok v :: load_jsonl_from path (line_num + 1) rest
        | Ok None =>
            [Raise (ValueError ("Invalid JSON on line " +:+ pretty line_num
                                +:+ " of " +:+ path))]
        | Raise e => [Raise e]
        end
  | [] => []
  end.

Definition load_jsonl (path : string) (lines : list string) : list (result pyval) :=
  load_jsonl_from path 1 lines.

Definition build_repo_path (repo_root repo_slug : string) : string :=
  path_join repo_root (replace "/" "_" repo_slug).

(** [regex and not regex.search(instance_id)]; [search] takes a [str]. *)
Definition filtered_out (regex : option (string -> bool)) (instance_id : pyval) :
  result bool :=
  match regex with
  | Some search =>
      match instance_id with
      | PStr s => Ok (negb (search s))
      | _ => Raise TypeError
      end
  | None => Ok false
  end.

(** [args.limit and count >= args.limit] *)
Definition limit_reached (a : args) (count : Z) : bool :=
  match limit a with
  | Some l => negb (l =? 0)%Z && (l <=? count)%Z
  | None => false
  end.

(** The body of the loop of [main] on one record. *)
Definition body (a : args) (regex : option (string -> bool)) (st : state)
  (record : pyval) : control :=
  match get record "instance_id" with
  | Raise e => Fail e
  | Ok instance_id =>
  if negb (truthy instance_id) then Next st
  else
  match filtered_out regex instance_id with
  | Raise e => Fail e
  | Ok true => Next st
  | Ok false =>
  match get record "repo" with
  | Raise e => Fail e
  | Ok repo_slug =>
  if negb (truthy repo_slug) then Next st
  else
  match repo_slug with
  | PStr slug =>
      let repo_path := build_repo_path (repo_root a) slug in
      if negb (path_exists repo_path) then
        if skip_missing a then Next st
        else Next {| out := out st;
                     missing_repos := missing_repos st ++ [slug];
                     count := count st |}
      else
        match get record "base_commit", get record "problem_statement" with
        | Ok bc, Ok ps =>
            let base_commit := por bc (PStr "HEAD") in
            let problem_statement := por ps (PStr EmptyString) in
            let inst :=
              {| inst_image_name := image_name a;
                 problem_statement := problem_statement;
                 instance_id := instance_id;
                 repo_name := repo_path;
                 base_commit := base_commit;
                 extra_repo_slug := slug;
                 extra_repo_path := repo_path;
                 extra_base_commit := base_commit |} in
            let st' := {| out := out st ++ [inst];
                          missing_repos := missing_repos st;
                          count := count st + 1 |} in
            if limit_reached a (count st') then Break st' else Next st'
        | Raise e, _ => Fail e
        | _, Raise e => Fail e
        end
  | _ => Fail AttributeError
  end
  end
  end
  end.

(** [for record in load_jsonl(dataset_path)]: the state when the loop
    ends, and the exception that ended it if one did. *)
Fixpoint loop (a : args) (regex : option (string -> bool))
  (items : list (result pyval)) (st : state) : state * option exn :=
  match items with
  | Ok record :: rest =>
      match body a regex st record with
      | Next st' => loop a regex rest st'
      | Break st' => (st', None)
      | Fail e => (st, Some e)
      end
  | Raise e :: _ => (st, Some e)
  | [] => (st, None)
  end.

Definition init : state := {| out := []; missing_repos := []; count := 0 |}.

(** [re.compile(args.filter) if args.filter else None] *)
Definition compile_filter (a : args) : result (option (string -> bool)) :=
  match filter a with
  | Some pattern =>
      if str_empty pattern then Ok None
      else match re_compile pattern with
           | Some search => Ok (Some search)
           | None => Raise PatternError
           end
  | None => Ok None
  end.

(** The part of [main] after the two checks of its paths, on the items of
    the dataset. *)
Definition main_items (a : args) (items : list (result pyval)) : run :=
  match compile_filter a with
  | Raise e => {| written := None; stderr := []; stdout := []; exit := Raise e |}
  | Ok regex =>
      match loop a regex items init with
      | (st, Some e) =>
          {| written := Some (out st); stderr := []; stdout := [];
             exit := Raise e |}
      | (st, None) =>
          let wrote :=
            "Wrote " +:+ pretty (count st) +:+ " instances to " +:+ output a in
          match missing_repos st with
          | [] =>
              {| written := Some (out st); stderr := []; stdout := [wrote];
                 exit := Ok 0%Z |}
          | _ :: _ =>
              let missing_preview := join ", " (firstn 10 (missing_repos st)) in
              let msg :=
                "Missing " +:+ pretty (length (missing_repos st))
                +:+ " repos (first 10: " +:+ missing_preview +:+ ")" in
              if skip_missing a then
                {| written := Some (out st);
                   stderr := ["Warning: " +:+ msg];
                   stdout := [wrote]; exit := Ok 0%Z |}
              else
                {| written := Some (out st); stderr := [msg]; stdout := [];
                   exit := Ok 3%Z |}
          end
      end
  end.

(** [main], given the lines of the dataset file. *)
Definition main (a : args) (dataset_lines : list string) : run :=
  if negb (path_exists (dataset a)) then
    {| written := None; stderr := ["Dataset not found: " +:+ dataset a];
       stdout := []; exit := Ok 2%Z |}
  else if negb (path_exists (repo_root a)) then
    {| written := None; stderr := ["Repo root not found: " +:+ repo_root a];
       stdout := []; exit := Ok 2%Z |}
  else main_items a (load_jsonl (dataset a) dataset_lines).

End with_files.

End prepare_instances.

(** ** Notions of the specification *)

Import py.
Import parse_trajectories.

(** An ordered set: the list without its repetitions, every value at the
    place of its first occurrence. *)
Fixpoint dedup_first (l : list string) : list string :=
  match l with
  | [] => []
  | x :: l' => x :: filter (fun y => y <> x) (dedup_first l')
  end.

(** What both deduplicating loops do with a key. *)
Definition add_unique (st : list string * gset string) (k : string) :
  list string * gset string :=
  if bool_decide (k ∈ st.2) then st else (st.1 ++ [k], {[k]} ∪ st.2).

(** The elements [normalizeList] accepts: a sequence gives its elements, a
    single value gives itself, an absent or empty value gives none. *)
Definition elements_of (value : pyval) : list pyval :=
  if truthy value then
    match value with
    | PList l => l
    | _ => [value]
    end
  else [].

(** An element after trimming: strings only, not the empty ones. *)
Definition cleaned (item : pyval) : option string :=
  match item with
  | PStr s => if str_empty (strip s) then None else Some (strip s)
  | _ => None
  end.

(** The part of a string before the first occurrence of a character (all
    of it when there is none), and the part after it. *)
Fixpoint before (c : ascii) (s : string) : string :=
  match s with
  | String a s' => if Ascii.eqb a c then EmptyString else String a (before c s')
  | EmptyString => EmptyString
  end.

Fixpoint after (c : ascii) (s : string) : string :=
  match s with
  | String a s' => if Ascii.eqb a c then s' else after c s'
  | EmptyString => EmptyString
  end.

(** The module identifier of an entity: none without a colon; otherwise
    the file path before the first colon, joined by a colon to the first
    dot-separated segment of the qualified name after it when that segment
    is not empty. *)
Definition module_id (entity : string) : option string :=
  if contains ":" entity then
    let file_path := before ":" entity in
    let qualified_name := after ":" entity in
    let module_name := before "." qualified_name in
    if str_empty module_name then Some file_path
    else Some (file_path +:+ ":" +:+ module_name)
  else None.

(** The values each list of an output record is drawn from, in their
    order: the trimmed strings of the payload's own field, or what is
    derived from the entities when the own field gives nothing. *)
Definition entities_source (payload : pydict) : list string :=
  omap cleaned (elements_of (dict_get payload "found_entities")).

Definition files_source (payload : pydict) : list string :=
  match omap cleaned (elements_of (dict_get payload "found_files")),
        dedup_first (entities_source payload) with
  | [], e :: es =>
      omap cleaned
        (map (fun entity => PStr (before ":" entity))
             (List.filter (contains ":") (e :: es)))
  | own, _ => own
  end.

Definition modules_source (payload : pydict) : list string :=
  match omap cleaned (elements_of (dict_get payload "found_modules")),
        dedup_first (entities_source payload) with
  | [], e :: es => omap module_id (e :: es)
  | own, _ => own
  end.

(** The invariant of a Localization Output Record made from [payload]:
    each of its three lists has no value twice and is the list of its
    source values in [payload], every value at the place where it is first
    seen. *)
Definition ordered_sets (payload : pydict) (r : output_record) : Prop :=
  NoDup (found_files r) /\ NoDup (found_modules r) /\ NoDup (found_entities r)
  /\ found_files r = dedup_first (files_source payload)
  /\ found_modules r = dedup_first (modules_source payload)
  /\ found_entities r = dedup_first (entities_source payload).

(** The payload the converter takes from a trajectory file: the payload
    of the last step that yields one, the empty mapping when no step does;
    none when the text of the file does not decode to an object whose
    steps can be scanned. *)
Definition file_payload (json_loads : string -> result pyval) (f : traj_file) :
  option pydict :=
  match json_loads (traj_text f) with
  | Ok (PDict d) =>
      match select_payload json_loads (dict_get_or d "trajectory" (PList [])) with
      | Ok (payload, _, _) => Some payload
      | Raise _ => None
      end
  | _ => None
  end.

(** A record written for one of the trajectory files: it has the stem of
    the file, and its lists are the ordered sets of the payload of that
    file. *)
Definition ordered_record (json_loads : string -> result pyval)
  (traj_files : list traj_file) (r : output_record) : Prop :=
  exists (f : traj_file) (payload : pydict),
    f ∈ traj_files
    /\ traj_stem f = parse_trajectories.instance_id r
    /\ file_payload json_loads f = Some payload
    /\ ordered_sets payload r.

(** [json.loads] answers: it returns a value, or raises the
    [JSONDecodeError] the extractor handles. *)
Definition answers (loaded : result pyval) : bool :=
  match loaded with
  | Ok _ => true
  | Raise JSONDecodeError => true
  | Raise _ => false
  end.

(** The candidates [extract_json_payload] may hand to [json.loads] on a
    text: the trimmed inner texts of the fenced blocks that are not empty,
    the trimmed text when there is none, then the substrings of the brace
    scan. *)
Definition all_candidates (text : string) : list string :=
  match fenced_candidates text with
  | [] => [strip text]
  | c :: cs => c :: cs
  end ++ _iter_json_substrings text.

(** A text that holds an integer of 4301 digits. *)
Definition long_integer_text : string :=
  js "{'n': " +:+ string_of_list_ascii (repeat "1"%char 4301) +:+ "}".

(** The matches of the pattern of fenced blocks with the text each one
    covers: the list of [(match.group(0), match.group(1))], the exact
    matched substring and the inner text. *)
Fixpoint matches_from (skip : nat) (s : string) : list (string * string) :=
  match skip with
  | S k =>
      match s with
      | String _ s' => matches_from k s'
      | EmptyString => []
      end
  | O =>
      match s with
      | String _ s' =>
          match JSON_CODE_BLOCK_RE.match_at s with
          | Some (g, n) => (substring 0 n s, g) :: matches_from (Nat.pred n) s'
          | None => matches_from 0 s'
          end
      | EmptyString => []
      end
  end.



(** A text without a back quote. *)
Definition no_backtick (s : string) : Prop := contains "`" s = false.


(** A string that does not start with white space. *)
Definition starts_clean (s : string) : Prop :=
  match s with
  | String c _ => isspace c = false
  | EmptyString => True
  end.

(** An empty or white-space-only text. *)
Fixpoint whitespace_only (s : string) : bool :=
  match s with
  | String c s' => isspace c && whitespace_only s'
  | EmptyString => true
  end.

(** [c] occurs in [text] as a run of consecutive characters. *)
Definition substring_of (c text : string) : Prop :=
  exists pre post : string, text = pre +:+ c +:+ post.

(** The brace-nesting depth at the end of a string: one up at every
    opening brace, one down at every closing one. *)
Fixpoint brace_depth (s : string) : Z :=
  match s with
  | String c s' =>
      ((if Ascii.eqb c "{" then 1 else if Ascii.eqb c "}" then -1 else 0)
       + brace_depth s')%Z
  | EmptyString => 0%Z
  end.

(** The candidate of the brace scan that starts at index [i]: there is one
    when [text[i]] is an opening brace and the depth, counted from [i],
    comes back to zero; it is [text[i : i + n]] for the least such
    length [n]. *)
Definition candidate_at (text : string) (i : nat) : option string :=
  match String.get i text with
  | Some c =>
      if Ascii.eqb c "{" then
        option_map (fun n => substring i n text)
          (List.find (fun n => (brace_depth (substring i n text) =? 0)%Z)
                     (seq 1 (String.length text - i)))
      else None
  | None => None
  end.

(** The candidates of the brace scan, by increasing start index. *)
Definition brace_candidates (text : string) : list string :=
  omap (candidate_at text) (seq 0 (String.length text)).




(** *** The Instance Builder *)

Module pi := prepare_instances.

Section builder_notions.

Variable path_join : string -> string -> string.
Variable path_exists : string -> bool.

(** The identifier passes the filter: there is none, or the identifier is
    a string the pattern is found in. *)
Definition passes (regex : option (string -> bool)) (instance_id : pyval) : bool :=
  match regex with
  | Some search =>
      match instance_id with
      | PStr s => search s
      | _ => false
      end
  | None => true
  end.

(** A surviving record: an object with a non-empty [instance_id] that
    passes the filter and a non-empty [repo] slug.  The result is the
    object and the slug. *)
Definition survivor (regex : option (string -> bool)) (item : result pyval) :
  option (pydict * string) :=
  match item with
  | Ok (PDict d) =>
      if truthy (dict_get d "instance_id")
         && passes regex (dict_get d "instance_id")
      then
        match dict_get d "repo" with
        | PStr slug => if str_empty slug then None else Some (d, slug)
        | _ => None
        end
      else None
  | _ => None
  end.

(** The local mirror of a slug: every slash replaced by an underscore,
    under the root. *)
Definition mirror (a : pi.args) (slug : string) : string :=
  path_join (pi.repo_root a) (replace "/" "_" slug).

(** The Task Instance of a surviving record. *)
Definition task_instance (a : pi.args) (d : pydict) (slug : string) : pi.instance :=
  {| pi.inst_image_name := pi.image_name a;
     pi.problem_statement := por (dict_get d "problem_statement") (PStr EmptyString);
     pi.instance_id := dict_get d "instance_id";
     pi.repo_name := mirror a slug;
     pi.base_commit := por (dict_get d "base_commit") (PStr "HEAD");
     pi.extra_repo_slug := slug;
     pi.extra_repo_path := mirror a slug;
     pi.extra_base_commit := por (dict_get d "base_commit") (PStr "HEAD") |}.

(** What a record contributes: its Task Instance when it survives and its
    mirror exists, its slug to the missing repositories when it survives
    and its mirror does not exist. *)
Definition emitted (a : pi.args) (regex : option (string -> bool))
  (item : result pyval) : option pi.instance :=
  match survivor regex item with
  | Some (d, slug) =>
      if path_exists (mirror a slug) then Some (task_instance a d slug) else None
  | None => None
  end.

Definition missing_slug (a : pi.args) (regex : option (string -> bool))
  (item : result pyval) : option string :=
  match survivor regex item with
  | Some (d, slug) => if path_exists (mirror a slug) then None else Some slug
  | None => None
  end.

End builder_notions.

(** A value that is a string or is false (absent, null, empty). *)
Definition str_or_false (v : pyval) : bool :=
  match v with
  | PStr _ => true
  | _ => negb (truthy v)
  end.

(** A well-formed Benchmark Record: an object whose [instance_id] and
    [repo] are strings when they are there. *)
Definition well_formed (record : pyval) : bool :=
  match record with
  | PDict d =>
      str_or_false (dict_get d "instance_id") && str_or_false (dict_get d "repo")
  | _ => false
  end.

(** How many more instances a run that has written [count] of them writes
    at most: no bound without a limit (or with the limit 0), otherwise what
    is left to the limit, and one at least since the limit is looked at
    after an instance is written. *)
Definition room (limit : option Z) (count : Z) : option nat :=
  match limit with
  | Some l => if (l =? 0)%Z then None else Some (Z.to_nat (Z.max 1 (l - count)))
  | None => None
  end.

Definition up_to {A : Type} (r : option nat) (l : list A) : list A :=
  match r with
  | Some n => firstn n l
  | None => l
  end.

(** The limit stops no run that has [n] instances to write. *)
Definition limit_not_reached (limit : option Z) (n : nat) : bool :=
  match limit with
  | Some l => (l =? 0)%Z || (Z.of_nat n <? l)%Z
  | None => true
  end.

(** The report of the missing repositories. *)
Definition missing_report (missing : list string) : string :=
  "Missing " +:+ pretty (length missing) +:+ " repos (first 10: "
  +:+ join ", " (firstn 10 missing) +:+ ")".

Section builder_steps.

Variable path_join : string -> string -> string.
Variable path_exists : string -> bool.

(** The state after a record, by what the record contributes. *)
Definition after_emit (st : pi.state) (inst : pi.instance) : pi.state :=
  {| pi.out := pi.out st ++ [inst];
     pi.missing_repos := pi.missing_repos st;
     pi.count := (pi.count st + 1)%Z |}.

Definition after_missing (a : pi.args) (st : pi.state) (slug : string) : pi.state :=
  if pi.skip_missing a then st
  else {| pi.out := pi.out st;
          pi.missing_repos := pi.missing_repos st ++ [slug];
          pi.count := pi.count st |}.

Definition step_of (a : pi.args) (regex : option (string -> bool))
  (st : pi.state) (record : pyval) : pi.control :=
  match emitted path_join path_exists a regex (Ok record),
        missing_slug path_join path_exists a regex (Ok record) with
  | Some inst, _ =>
      if pi.limit_reached a (pi.count st + 1)
      then pi.Break (after_emit st inst)
      else pi.Next (after_emit st inst)
  | None, Some slug => pi.Next (after_missing a st slug)
  | None, None => pi.Next st
  end.

End builder_steps.

(** *** A small installation for the examples

    A root directory with the mirrors of two repositories, and the lines
    of a dataset with their records: two of repositories that have a
    mirror, two of repositories that have none, one without a slug. *)

Definition ex_join (root name : string) : string := root +:+ "/" +:+ name.

Definition ex_exists (path : string) : bool :=
  bool_decide (path ∈ ["data.jsonl"; "repos"; "repos/org_a"; "repos/org_b"]).

(** [re.compile] on the patterns of the examples, which have no special
    character: the search for the pattern as it is written. *)
Fixpoint occurs (pattern s : string) : bool :=
  match re.literal false pattern s with
  | Some _ => true
  | None =>
      match s with
      | String _ s' => occurs pattern s'
      | EmptyString => false
      end
  end.

Definition ex_compile (pattern : string) : option (string -> bool) :=
  Some (occurs pattern).

Definition ex_args (filter : option string) (limit : option Z)
  (skip_missing : bool) : pi.args :=
  {| pi.dataset := "data.jsonl";
     pi.repo_root := "repos";
     pi.output := "out/instances.jsonl";
     pi.image_name := EmptyString;
     pi.filter := filter;
     pi.limit := limit;
     pi.skip_missing := skip_missing |}.

Definition line_a : string :=
  js "{'instance_id': 'a1', 'repo': 'org/a', 'base_commit': 'abc123'}".
Definition line_b : string :=
  js "{'instance_id': 'b1', 'repo': 'org/b', 'problem_statement': 'fix it'}".
Definition line_m : string :=
  js "{'instance_id': 'm1', 'repo': 'org/m'}".
Definition line_m2 : string :=
  js "{'instance_id': 'm2', 'repo': 'org/m2'}".
Definition line_norepo : string :=
  js "{'instance_id': 'n1', 'repo': ''}".

Definition record_a : pydict :=
  [("instance_id", PStr "a1"); ("repo", PStr "org/a");
   ("base_commit", PStr "abc123")].
Definition record_b : pydict :=
  [("instance_id", PStr "b1"); ("repo", PStr "org/b");
   ("problem_statement", PStr "fix it")].
Definition record_m : pydict :=
  [("instance_id", PStr "m1"); ("repo", PStr "org/m")].
Definition record_norepo : pydict :=
  [("instance_id", PStr "n1"); ("repo", PStr EmptyString)].

(** *** The dataset file *)

(** The records of the lines of a dataset: a blank line gives none, any
    other line the value its trimmed text decodes to. *)
Definition decoded_lines (json_loads : string -> result pyval)
  (lines : list string) : list pyval :=
  omap (fun line => if str_empty (strip line) then None
                    else match json_loads (strip line) with
                         | Ok v => Some v
                         | Raise _ => None
                         end) lines.

(** A line that is blank or decodes. *)
Definition good_line (json_loads : string -> result pyval) (line : string) : Prop :=
  strip line = EmptyString \/ exists v, json_loads (strip line) = Ok v.

(** The message of [load_jsonl] for a line that does not decode. *)
Definition invalid_json (line_num : Z) (path : string) : exn :=
  ValueError ("Invalid JSON on line " +:+ pretty line_num +:+ " of " +:+ path).

(** One turn of the loop of [build_meta]. *)
Definition meta_step (record meta : pydict) (key : string) : pydict :=
  if dict_has record key then dict_set meta key (dict_get record key) else meta.

(** The five fields of a Benchmark Record that go into [meta_data]. *)
Definition meta_keys : list string :=
  ["repo"; "base_commit"; "problem_statement"; "patch"; "test_patch"].

(** *** The records of the Trajectory Converter *)

(** The raw output of an output record: nothing, or one string that is
    not empty. *)
Definition raw_output_ok (r : output_record) : Prop :=
  raw_output_loc r = []
  \/ exists t, t <> EmptyString /\ raw_output_loc r = [PStr t].

(** An output record made for a Benchmark Record: it has the identifier
    of that record and the metadata built from it. *)
Definition made_for (r : output_record) (d : pydict) : Prop :=
  dict_get d "instance_id" = PStr (parse_trajectories.instance_id r)
  /\ meta_data r = build_meta d.

(** *** A run of the Trajectory Converter for the examples

    A dataset of one record and two trajectory files, the second of an
    instance the dataset does not have. *)

Definition ex_dataset : list string :=
  [js "{'instance_id': 'x1', 'repo': 'org/repo', 'difficulty': 3}"].

Definition ex_traj_x1 : traj_file :=
  {| traj_path := "trajs/x1/x1.traj";
     traj_stem := "x1";
     traj_text :=
       js "{'trajectory': [{'response': '{\'found_files\': [\'a.py\']}'}, {'response': 'done'}]}" |}.

Definition ex_traj_entities : traj_file :=
  {| traj_path := "trajs/x1/x1.traj";
     traj_stem := "x1";
     traj_text :=
       js "{'trajectory': [{'response': '{\'found_entities\': [\'a/b.py:Foo.bar\', \' a/b.py:Foo.baz\', \'c/d.py:Qux\', \'a/b.py:Foo.bar\']}'}]}" |}.

Definition ex_traj_y2 : traj_file :=
  {| traj_path := "trajs/y2/y2.traj";
     traj_stem := "y2";
     traj_text := js "{'trajectory': []}" |}.

Definition ex_record_x1 : output_record :=
  {| parse_trajectories.instance_id := "x1";
     found_files := ["a.py"];
     found_modules := [];
     found_entities := [];
     raw_output_loc := [PStr (js "{'found_files': ['a.py']}")];
     meta_data := [("repo", PStr "org/repo")] |}.

(** *** More notions of the Instance Builder *)

(** The arguments with another limit, and with another filter. *)
Definition with_limit (a : pi.args) (limit : option Z) : pi.args :=
  {| pi.dataset := pi.dataset a;
     pi.repo_root := pi.repo_root a;
     pi.output := pi.output a;
     pi.image_name := pi.image_name a;
     pi.filter := pi.filter a;
     pi.limit := limit;
     pi.skip_missing := pi.skip_missing a |}.

Definition with_filter (a : pi.args) (filter : option string) : pi.args :=
  {| pi.dataset := pi.dataset a;
     pi.repo_root := pi.repo_root a;
     pi.output := pi.output a;
     pi.image_name := pi.image_name a;
     pi.filter := filter;
     pi.limit := pi.limit a;
     pi.skip_missing := pi.skip_missing a |}.

(** A Task Instance as the Instance Builder is meant to write them: made
    from a record of the dataset that has an identifier and a slug, with the
    mirror of the slug as its repository, a mirror that exists, and with a
    commit to check out. *)
Definition well_built (path_join : string -> string -> string)
  (path_exists : string -> bool) (a : pi.args) (items : list (result pyval))
  (inst : pi.instance) : Prop :=
  pi.inst_image_name inst = pi.image_name a
  /\ truthy (pi.instance_id inst) = true
  /\ pi.extra_repo_slug inst <> EmptyString
  /\ pi.repo_name inst
     = path_join (pi.repo_root a) (replace "/" "_" (pi.extra_repo_slug inst))
  /\ path_exists (pi.repo_name inst) = true
  /\ pi.extra_repo_path inst = pi.repo_name inst
  /\ truthy (pi.base_commit inst) = true
  /\ pi.extra_base_commit inst = pi.base_commit inst
  /\ exists d : pydict,
       Ok (PDict d) ∈ items
       /\ dict_get d "instance_id" = pi.instance_id inst
       /\ dict_get d "repo" = PStr (pi.extra_repo_slug inst)
       /\ pi.base_commit inst = por (dict_get d "base_commit") (PStr "HEAD")
       /\ pi.problem_statement inst
          = por (dict_get d "problem_statement") (PStr EmptyString).

(** The message of a run that ends well. *)
Definition wrote_message (n : nat) (output : string) : string :=
  "Wrote " +:+ pretty (Z.of_nat n) +:+ " instances to " +:+ output.

(** What the loop has done when it ends, however it ends: it has gone
    through some first items of the dataset, written what they contribute
    and counted it, within the room the limit leaves. *)
Definition traced (path_join : string -> string -> string)
  (path_exists : string -> bool) (a : pi.args) (regex : option (string -> bool))
  (items : list (result pyval)) (st st' : pi.state) : Prop :=
  exists seen : list (result pyval),
    seen `prefix_of` items
    /\ pi.out st' = pi.out st ++ omap (emitted path_join path_exists a regex) seen
    /\ pi.missing_repos st'
       = pi.missing_repos st
         ++ (if pi.skip_missing a then []
             else omap (missing_slug path_join path_exists a regex) seen)
    /\ pi.count st'
       = (pi.count st
          + Z.of_nat (length (omap (emitted path_join path_exists a regex) seen)))%Z
    /\ match room (pi.limit a) (pi.count st) with
       | Some n =>
           (length (omap (emitted path_join path_exists a regex) seen) <= n)%nat
       | None => True
       end.

(** *** More notions of the Trajectory Converter *)

(** An item of the dataset that is not a record of the identifier [k]. *)
Definition other_id (k : string) (item : pyval) : Prop :=
  match item with
  | PDict d => dict_get d "instance_id" <> PStr k
  | _ => True
  end.

(** A trajectory file the converter makes a record for: its stem is an
    identifier of the dataset and its text decodes. *)
Definition usable (json_loads : string -> result pyval)
  (bench_data : gmap string pydict) (f : traj_file) : bool :=
  match bench_data !! traj_stem f, json_loads (traj_text f) with
  | Some _, Ok _ => true
  | _, _ => false
  end.

(** A trajectory file of the dataset whose text does not decode. *)
Definition unreadable (json_loads : string -> result pyval)
  (bench_data : gmap string pydict) (f : traj_file) : bool :=
  match bench_data !! traj_stem f, json_loads (traj_text f) with
  | Some _, Raise JSONDecodeError => true
  | _, _ => false
  end.

(** A trajectory file none of whose steps yields a payload. *)
Definition without_payload (json_loads : string -> result pyval)
  (f : traj_file) : bool :=
  match json_loads (traj_text f) with
  | Ok (PDict d) =>
      match select_payload json_loads (dict_get_or d "trajectory" (PList [])) with
      | Ok (_, _, true) => true
      | _ => false
      end
  | _ => false
  end.

(** The diagnostics of a run that ends well: one line for each unreadable
    file, then the number of records without a payload when there is
    one. *)
Definition skipped_message (f : traj_file) : string :=
  "Skipping invalid JSON: " +:+ traj_path f.

Definition payload_warning (n : nat) : list string :=
  match n with
  | O => []
  | S _ =>
      ["Warning: " +:+ pretty (Z.of_nat n) +:+ " instances had no JSON payload."]
  end.

(** A dataset with two records of one identifier. *)
Definition ex_dataset_twice : list string :=
  [js "{'instance_id': 'x1', 'repo': 'org/old'}";
   js "{'instance_id': 'x1', 'repo': 'org/repo', 'difficulty': 3}"].

(** ** Ordered sets *)

Section ordered_sets.

Lemma dedup_first_elem (x : string) (l : list string) :
  x ∈ dedup_first l <-> x ∈ l.
Proof.
  induction l as [|y l IH]; simpl; [done|].
  rewrite !elem_of_cons, list_elem_of_filter, IH.
  destruct (decide (x = y)); naive_solver.
Qed.

Lemma dedup_first_NoDup (l : list string) : NoDup (dedup_first l).
Proof.
  induction l as [|y l IH]; simpl; [constructor|].
  constructor; [|by apply NoDup_filter].
  rewrite list_elem_of_filter. naive_solver.
Qed.

Lemma filter_all (P : string -> Prop) `{!forall x, Decision (P x)} (l : list string) :
  Forall P l -> filter P l = l.
Proof.
  induction 1 as [|x l Hx _ IH]; [done|].
  by rewrite filter_cons_True, IH.
Qed.

Lemma dedup_first_id (l : list string) : NoDup l -> dedup_first l = l.
Proof.
  induction 1 as [|x l Hx _ IH]; simpl; [done|].
  rewrite IH, filter_all; [done|].
  apply Forall_forall. intros y Hy ->. done.
Qed.

Lemma dedup_first_sublist (l : list string) : sublist (dedup_first l) l.
Proof.
  induction l as [|x l IH]; simpl; [constructor|].
  apply sublist_skip. etrans; [apply sublist_filter|done].
Qed.

(** The loop on [(result, seen)], from a state whose set holds the values
    of its list. *)
Lemma fold_add_unique (keys res : list string) (seen : gset string) :
  (forall x, x ∈ seen <-> x ∈ res) ->
  (fold_left add_unique keys (res, seen)).1
  = res ++ filter (fun y => y ∉ res) (dedup_first keys).
Proof.
  revert res seen.
  induction keys as [|k keys IH]; intros res seen Hseen; simpl.
  { by rewrite filter_nil, app_nil_r. }
  unfold add_unique at 2. simpl. case_bool_decide as Hk.
  - rewrite (IH _ _ Hseen). f_equal.
    rewrite filter_cons_False by (rewrite <- Hseen; naive_solver).
    rewrite list_filter_filter. apply list_filter_iff.
    intros y. split; [|naive_solver].
    intros Hy. split; [done|]. intros ->. apply Hy. by apply Hseen.
  - rewrite (IH (res ++ [k]) ({[k]} ∪ seen)).
    2:{ intros x. rewrite elem_of_union, elem_of_singleton, elem_of_app,
          list_elem_of_singleton, Hseen. naive_solver. }
    rewrite <- app_assoc. f_equal. simpl.
    rewrite filter_cons_True by (rewrite <- Hseen; done).
    f_equal. rewrite list_filter_filter. apply list_filter_iff.
    intros y. rewrite elem_of_app, list_elem_of_singleton. naive_solver.
Qed.

Lemma fold_add_unique_init (keys : list string) :
  (fold_left add_unique keys ([], ∅)).1 = dedup_first keys.
Proof.
  rewrite fold_add_unique by set_solver. simpl.
  apply filter_all, Forall_forall. intros x _. apply not_elem_of_nil.
Qed.

(** A loop that skips some items and hands the key of the others to
    [add_unique]. *)
Lemma fold_keys {A : Type} (key : A -> option string)
  (step : list string * gset string -> A -> list string * gset string)
  (items : list A) (st : list string * gset string) :
  (forall st item,
     step st item = match key item with
                    | Some k => add_unique st k
                    | None => st
                    end) ->
  fold_left step items st = fold_left add_unique (omap key items) st.
Proof.
  intros Hstep. revert st.
  induction items as [|item items IH]; intros st; simpl; [done|].
  rewrite Hstep. destruct (key item); simpl; apply IH.
Qed.

End ordered_sets.

(** ** [str.strip] *)

Section strip_facts.

Lemma lstrip_starts_clean (s : string) : starts_clean (lstrip s).
Proof.
  induction s as [|c s IH]; simpl; [done|].
  destruct (isspace c) eqn:Hc; [done|]. simpl. done.
Qed.

Lemma lstrip_clean (s : string) : starts_clean s -> lstrip s = s.
Proof. destruct s as [|c s]; simpl; [done|]. by intros ->. Qed.

Lemma rstrip_starts_clean (s : string) : starts_clean s -> starts_clean (rstrip s).
Proof.
  destruct s as [|c s]; simpl; [done|]. intros Hc.
  destruct (rstrip s); simpl; [|done]. by rewrite Hc.
Qed.

Lemma rstrip_idem (s : string) : rstrip (rstrip s) = rstrip s.
Proof.
  induction s as [|c s IH]; simpl; [done|].
  destruct (rstrip s) as [|d r] eqn:Hr.
  - destruct (isspace c) eqn:Hc; simpl; [done|]. by rewrite Hc.
  - change (rstrip (String c (String d r))) with
      (match rstrip (String d r) with
       | EmptyString => if isspace c then EmptyString else String c EmptyString
       | r0 => String c r0
       end).
    by rewrite IH.
Qed.

Lemma strip_idem (s : string) : strip (strip s) = strip s.
Proof.
  unfold strip.
  rewrite (lstrip_clean (rstrip (lstrip s))).
  - apply rstrip_idem.
  - apply rstrip_starts_clean, lstrip_starts_clean.
Qed.

End strip_facts.

(** ** [normalize_list] *)

Section normalize_list_facts.

Lemma normalize_item_key (st : list string * gset string) (item : pyval) :
  normalize_item st item = match cleaned item with
                           | Some k => add_unique st k
                           | None => st
                           end.
Proof.
  destruct st as [res seen]. destruct item; simpl; try done.
  unfold add_unique. simpl.
  destruct (str_empty (strip s)); simpl; [done|].
  by case_bool_decide.
Qed.

(** [normalize_list] gives the ordered set of the trimmed strings of its
    argument. *)
Lemma normalize_list_spec (value : pyval) :
  normalize_list value = dedup_first (omap cleaned (elements_of value)).
Proof.
  unfold normalize_list, elements_of.
  destruct (truthy value); simpl; [|done].
  rewrite (fold_keys cleaned) by apply normalize_item_key.
  apply fold_add_unique_init.
Qed.

Lemma normalize_list_NoDup (value : pyval) : NoDup (normalize_list value).
Proof. rewrite normalize_list_spec. apply dedup_first_NoDup. Qed.

Lemma cleaned_fixed (x : string) (items : list pyval) :
  x ∈ omap cleaned items -> cleaned (PStr x) = Some x.
Proof.
  rewrite list_elem_of_omap. intros (item & _ & Hitem).
  destruct item; simpl in Hitem; try done.
  destruct (str_empty (strip s)) eqn:He; [done|].
  injection Hitem as <-. simpl. by rewrite strip_idem, He.
Qed.

Lemma omap_cleaned_fixed (l : list string) :
  Forall (fun x => cleaned (PStr x) = Some x) l ->
  omap cleaned (map PStr l) = l.
Proof.
  induction 1 as [|x l Hx _ IH]; [done|].
  change (omap cleaned (map PStr (x :: l))) with
    (match cleaned (PStr x) with
     | Some y => y :: omap cleaned (map PStr l)
     | None => omap cleaned (map PStr l)
     end).
  by rewrite Hx, IH.
Qed.

Lemma normalize_list_fixed (l : list string) :
  NoDup l -> Forall (fun x => cleaned (PStr x) = Some x) l ->
  normalize_list (PList (map PStr l)) = l.
Proof.
  intros Hnd Hl. rewrite normalize_list_spec. unfold elements_of.
  destruct l as [|x l]; [done|].
  change (truthy (PList (map PStr (x :: l)))) with true. cbv iota.
  rewrite omap_cleaned_fixed by done. by apply dedup_first_id.
Qed.

Lemma normalize_list_cleaned (value : pyval) :
  Forall (fun x => cleaned (PStr x) = Some x) (normalize_list value).
Proof.
  rewrite normalize_list_spec. apply Forall_forall. intros x Hx.
  apply (proj1 (dedup_first_elem _ _)) in Hx. exact (cleaned_fixed _ _ Hx).
Qed.

(** C6. [normalize_list] is idempotent: normalising the list it returns
    gives that list again. *)
Theorem normalize_list_idempotent (value : pyval) :
  normalize_list (PList (map PStr (normalize_list value)))
  = normalize_list value.
Proof.
  apply normalize_list_fixed.
  - apply normalize_list_NoDup.
  - apply normalize_list_cleaned.
Qed.

End normalize_list_facts.

(** ** [entities_to_modules] *)

Section entities_to_modules_facts.

Lemma split1_parts (c : ascii) (s : string) :
  contains c s = true -> split1 c s = [before c s; after c s].
Proof.
  induction s as [|a s IH]; simpl; [done|].
  destruct (Ascii.eqb a c); [done|].
  intros Hc. by rewrite (IH Hc).
Qed.

Lemma split1_head (c : ascii) (s : string) :
  hd EmptyString (split1 c s) = before c s.
Proof.
  induction s as [|a s IH]; simpl; [done|].
  destruct (Ascii.eqb a c); [done|].
  destruct (split1 c s); simpl in *; by rewrite <- IH.
Qed.

Lemma split_head (c : ascii) (s : string) :
  hd EmptyString (split c s) = before c s.
Proof.
  induction s as [|a s IH]; simpl; [done|].
  destruct (Ascii.eqb a c); [done|].
  destruct (split c s); simpl in *; by rewrite <- IH.
Qed.

Lemma module_of_entity_key (st : list string * gset string) (entity : string) :
  module_of_entity st entity = match module_id entity with
                               | Some k => add_unique st k
                               | None => st
                               end.
Proof.
  destruct st as [modules seen]. unfold module_of_entity, module_id.
  destruct (contains ":" entity) eqn:Hc; simpl; [|done].
  rewrite (split1_parts _ _ Hc), split_head.
  unfold add_unique.
  destruct (str_empty (before "." (after ":" entity))); simpl;
    by case_bool_decide.
Qed.

Lemma entities_to_modules_spec (found_entities : list string) :
  entities_to_modules found_entities
  = dedup_first (omap module_id found_entities).
Proof.
  unfold entities_to_modules.
  rewrite (fold_keys module_id) by apply module_of_entity_key.
  apply fold_add_unique_init.
Qed.

(** C5. The module derivation skips the entities without a colon, maps
    each other entity to [filePath:moduleName] (or [filePath] when the
    module name is empty) and keeps the first occurrence of each
    identifier, in the order of the input; on the three entities of the
    specification it gives the two modules the specification names. *)
Theorem entities_to_modules_derivation :
  (forall found_entities : list string,
     entities_to_modules found_entities
     = dedup_first (omap module_id found_entities))
  /\ entities_to_modules ["a/b.py:Foo.bar"; "a/b.py:Foo.baz"; "c/d.py:Qux"]
     = ["a/b.py:Foo"; "c/d.py:Qux"].
Proof.
  split; [apply entities_to_modules_spec|]. by vm_compute.
Qed.

End entities_to_modules_facts.

(** ** The lists of an output record *)

Section found_lists_facts.

Lemma omap_cleaned_elements (l : list pyval) :
  omap cleaned (elements_of (PList l)) = omap cleaned l.
Proof. by destruct l. Qed.

Lemma dedup_first_nil (l : list string) : dedup_first l = [] -> l = [].
Proof. by destruct l. Qed.

Lemma found_lists_spec (payload : pydict) :
  found_lists payload
  = (dedup_first (files_source payload),
     dedup_first (modules_source payload),
     dedup_first (entities_source payload)).
Proof.
  unfold found_lists, files_source, modules_source.
  rewrite !normalize_list_spec. fold (entities_source payload).
  destruct (dedup_first (entities_source payload)) as [|e es] eqn:He.
  - f_equal; f_equal;
      by destruct (omap cleaned (elements_of (dict_get payload _))).
  - f_equal; f_equal.
    + destruct (omap cleaned (elements_of (dict_get payload "found_files")));
        [|done].
      simpl dedup_first at 1. cbv iota.
      rewrite omap_cleaned_elements.
      do 2 f_equal.
      apply map_ext. intros entity. by rewrite split1_head.
    + destruct (omap cleaned (elements_of (dict_get payload "found_modules")));
        [|done].
      simpl dedup_first at 1. cbv iota.
      apply entities_to_modules_spec.
Qed.

Lemma found_lists_ordered (payload : pydict) (stem : string)
  (files modules entities : list string) (raw : list pyval) (meta : pydict) :
  found_lists payload = (files, modules, entities) ->
  ordered_sets payload
    {| parse_trajectories.instance_id := stem;
       found_files := files;
       found_modules := modules;
       found_entities := entities;
       raw_output_loc := raw;
       meta_data := meta |}.
Proof.
  rewrite found_lists_spec. intros [= <- <- <-].
  repeat split; apply dedup_first_NoDup.
Qed.

End found_lists_facts.

(** ** [extract_json_payload] *)

Section extractor.

Variable json_loads : string -> result pyval.

Local Abbreviation extract := (extract_json_payload json_loads).
Local Abbreviation try_load := (_try_load_json json_loads).
Local Abbreviation first_of := (first_payload json_loads).

Lemma try_load_sound (candidate : string) (payload : pydict) :
  try_load candidate = Ok (Some payload) ->
  json_loads candidate = Ok (PDict payload).
Proof.
  unfold _try_load_json, catch_decode_error.
  destruct (json_loads candidate) as [[]|[]]; try done. by intros [= ->].
Qed.

Lemma try_load_object (candidate : string) (payload : pydict) :
  json_loads candidate = Ok (PDict payload) ->
  try_load candidate = Ok (Some payload).
Proof. unfold _try_load_json. by intros ->. Qed.

Lemma try_load_answers (candidate : string) :
  answers (json_loads candidate) = true -> exists r, try_load candidate = Ok r.
Proof.
  unfold _try_load_json, catch_decode_error, answers.
  destruct (json_loads candidate) as [[]|[]]; try done; by eexists.
Qed.

Lemma first_payload_sound (candidates : list string) (payload : pydict)
  (candidate : string) :
  first_of candidates = Ok (Some (payload, candidate)) ->
  candidate ∈ candidates /\ try_load candidate = Ok (Some payload).
Proof.
  induction candidates as [|c cs IH]; cbn [first_payload]; [done|].
  destruct (try_load c) as [[p|]|e] eqn:Hc; cbn [bind]; [| |done].
  - intros [= <- <-]. split; [left|done].
  - intros H. destruct (IH H). split; [by right|done].
Qed.


Lemma first_payload_none (candidates : list string) :
  Forall (fun b => try_load b = Ok None) candidates ->
  first_of candidates = Ok None.
Proof.
  induction 1 as [|b bs Hb _ IH]; cbn [first_payload]; [done|].
  by rewrite Hb.
Qed.

Lemma first_payload_answers (candidates : list string) :
  forallb (fun c => answers (json_loads c)) candidates = true ->
  exists r, first_of candidates = Ok r.
Proof.
  induction candidates as [|c cs IH]; cbn [forallb first_payload];
    [by eexists|].
  intros [Hc Hcs]%andb_prop.
  destruct (try_load_answers c Hc) as [[p|] ->]; cbn [bind]; [by eexists|].
  by apply IH.
Qed.

(** What [extract_json_payload] returns when it returns. *)
Lemma extract_returned (text : string) (r : option pydict * option string) :
  extract text = Ok r ->
  r = (None, None)
  \/ exists payload source,
        r = (Some payload, Some source)
        /\ json_loads source = Ok (PDict payload).
Proof.
  unfold extract_json_payload.
  destruct (str_empty text); [intros [= <-]; by left|].
  destruct (first_of _) as [[[p c]|]|e] eqn:H1; cbn [bind]; [| |done].
  { intros [= <-]. right. exists p, c. split; [done|].
    apply try_load_sound. by apply first_payload_sound in H1 as [_ ?]. }
  destruct (first_of (_iter_json_substrings text)) as [[[p c]|]|e] eqn:H2;
    cbn [bind]; [| |done].
  { intros [= <-]. right. exists p, c. split; [done|].
    apply try_load_sound. by apply first_payload_sound in H2 as [_ ?]. }
  intros [= <-]. by left.
Qed.

(** Where [json.loads] answers on every candidate, the extractor
    returns. *)
Lemma extract_shape (text : string) :
  forallb (fun c => answers (json_loads c)) (all_candidates text) = true ->
  extract text = Ok (None, None)
  \/ exists payload source,
        extract text = Ok (Some payload, Some source)
        /\ json_loads source = Ok (PDict payload).
Proof.
  intros Hall.
  assert (exists r, extract text = Ok r) as [r Hr].
  { revert Hall. unfold all_candidates, extract_json_payload.
    destruct (str_empty text); [by eexists|].
    rewrite forallb_app. intros [H1 H2]%andb_prop.
    assert (exists r1,
              first_of match fenced_candidates text with
                       | [] => [strip text]
                       | _ :: _ => fenced_candidates text
                       end = Ok r1) as [r1 ->].
    { apply first_payload_answers.
      by destruct (fenced_candidates text). }
    cbn [bind]. destruct r1 as [[p c]|]; [by eexists|].
    destruct (first_payload_answers _ H2) as [[[p c]|] ->]; by eexists. }
  rewrite Hr. destruct (extract_returned _ _ Hr) as [->|(p & c & -> & Hload)];
    [by left|right; by exists p, c].
Qed.

(** A white-space character is neither a back quote nor a brace. *)
Lemma space_not_fence (c : ascii) (s : string) :
  isspace c = true -> re.literal true JSON_CODE_BLOCK_RE.fence (String c s) = None.
Proof.
  intros Hc. unfold JSON_CODE_BLOCK_RE.fence.
  change (re.literal true "```" (String c s)) with
    (if re.char_eq true "`" c then re.literal true "``" s else None).
  destruct (re.char_eq true "`" c) eqn:He; [|done].
  exfalso. revert Hc He.
  destruct c as [[] [] [] [] [] [] [] []]; by vm_compute.
Qed.

Lemma space_not_brace (c : ascii) :
  isspace c = true -> Ascii.eqb c "{" = false.
Proof.
  intros Hc. destruct (Ascii.eqb_spec c "{") as [->|]; [|done].
  by vm_compute in Hc.
Qed.

Lemma whitespace_finditer (s : string) :
  whitespace_only s = true -> JSON_CODE_BLOCK_RE.finditer_from 0 s = [].
Proof.
  induction s as [|c s IH]; simpl; [done|].
  intros [Hc Hs]%andb_prop.
  unfold JSON_CODE_BLOCK_RE.match_at. rewrite (space_not_fence _ _ Hc). by apply IH.
Qed.

Lemma whitespace_lstrip (s : string) :
  whitespace_only s = true -> lstrip s = EmptyString.
Proof.
  induction s as [|c s IH]; simpl; [done|].
  intros [-> Hs]%andb_prop. by apply IH.
Qed.

Lemma whitespace_no_brace (s : string) :
  whitespace_only s = true -> _iter_json_substrings s = [].
Proof.
  induction s as [|c s IH]; [done|].
  intros [Hc Hs]%andb_prop.
  change (_iter_json_substrings (String c s)) with
    ((if Ascii.eqb c "{" then
        match scan_braces 0 (String c s) with
        | Some sub => [sub]
        | None => []
        end
      else []) ++ _iter_json_substrings s).
  by rewrite (space_not_brace _ Hc), IH.
Qed.

Lemma extract_whitespace (text : string) :
  json_loads EmptyString = Raise JSONDecodeError ->
  whitespace_only text = true ->
  extract text = Ok (None, None).
Proof.
  intros Hempty Hws. unfold extract_json_payload.
  destruct (str_empty text); [done|].
  unfold fenced_candidates, JSON_CODE_BLOCK_RE.finditer, strip.
  rewrite (whitespace_finditer _ Hws), (whitespace_lstrip _ Hws),
    (whitespace_no_brace _ Hws).
  simpl. unfold _try_load_json. by rewrite Hempty.
Qed.

End extractor.

(** The reference decoder on numbers: an integer, floats that round to
    zero and one that does not, an integer of 4301 digits, and a text that
    is not JSON. *)
Example loads_numbers :
  json.loads "-12" = Ok (PInt (-12))
  /\ json.loads "1e-400" = Ok (PFloat false)
  /\ json.loads "0.000e7" = Ok (PFloat false)
  /\ json.loads "5e-324" = Ok (PFloat true)
  /\ json.loads (string_of_list_ascii (repeat "7"%char 4301))
     = Raise (json.int_too_long 4301)
  /\ json.loads "[1, x]" = Raise JSONDecodeError.
Proof. vm_compute. repeat split. Qed.

(** C1, as the code has it.  On a text where [json.loads] answers on every
    candidate - it returns a value or raises the [JSONDecodeError] that
    [_try_load_json] handles - [extract_json_payload] returns, either a
    payload with the source it was decoded from or nothing at all; on an
    empty or white-space-only text it returns nothing. *)
Theorem extract_json_payload_total (json_loads : string -> result pyval)
  (text : string) :
  (forallb (fun c => answers (json_loads c)) (all_candidates text) = true ->
   extract_json_payload json_loads text = Ok (None, None)
   \/ exists payload source,
         extract_json_payload json_loads text = Ok (Some payload, Some source)
         /\ json_loads source = Ok (PDict payload))
  /\ (json_loads EmptyString = Raise JSONDecodeError ->
      whitespace_only text = true ->
      extract_json_payload json_loads text = Ok (None, None)).
Proof.
  split; [apply extract_shape|apply extract_whitespace].
Qed.

Lemma extract_json_payload_total_witness :
  (extract_json_payload json.loads (js "note {bad} then {'a': 1} [2")
   = Ok (None, None)
   \/ exists payload source,
         extract_json_payload json.loads (js "note {bad} then {'a': 1} [2")
         = Ok (Some payload, Some source)
         /\ json.loads source = Ok (PDict payload))
  /\ extract_json_payload json.loads "  
	 " = Ok (None, None).
Proof.
  split.
  - apply (proj1 (extract_json_payload_total json.loads
                    (js "note {bad} then {'a': 1} [2"))).
    reflexivity.
  - apply (proj2 (extract_json_payload_total json.loads "  
	 ")); reflexivity.
Defined.

(** C1 as it is stated fails where [json.loads] raises something else than
    [JSONDecodeError]: on a text with an integer of 4301 digits it raises
    the [ValueError] of [int], which the handler of [_try_load_json] does
    not name, and the extractor raises it in its turn. *)
Lemma long_integer_raises :
  json.loads long_integer_text = Raise (json.int_too_long 4301)
  /\ extract_json_payload json.loads long_integer_text
     = Raise (ValueError ("Exceeds the limit (4300 digits) for integer string conversion: value has 4301 digits; use sys.set_int_max_str_digits() to increase the limit"))
  /\ forall r, extract_json_payload json.loads long_integer_text <> Ok r.
Proof.
  assert (extract_json_payload json.loads long_integer_text
          = Raise (json.int_too_long 4301)) as Hraise by (vm_compute; reflexivity).
  split; [vm_compute; reflexivity|]. split; [exact Hraise|].
  intros r. by rewrite Hraise.
Qed.

(** ** Substrings *)

Section substrings.

Lemma append_cons (x : ascii) (a b : string) :
  String x a +:+ b = String x (a +:+ b).
Proof. reflexivity. Qed.

Lemma append_nil_l (a : string) : EmptyString +:+ a = a.
Proof. reflexivity. Qed.

Lemma append_assoc (a b c : string) : (a +:+ b) +:+ c = a +:+ (b +:+ c).
Proof.
  induction a as [|x a IH]; [done|]. by rewrite !append_cons, IH.
Qed.

Lemma append_nil_r (a : string) : a +:+ EmptyString = a.
Proof. induction a as [|x a IH]; [done|]. by rewrite append_cons, IH. Qed.

Lemma substring_of_refl (s : string) : substring_of s s.
Proof. exists EmptyString, EmptyString. by rewrite append_nil_l, append_nil_r. Qed.

Lemma substring_of_trans (a b c : string) :
  substring_of a b -> substring_of b c -> substring_of a c.
Proof.
  intros (p1 & q1 & ->) (p2 & q2 & ->).
  exists (p2 +:+ p1), (q1 +:+ q2). by rewrite !append_assoc.
Qed.

Lemma substring_of_cons (c : ascii) (a s : string) :
  substring_of a s -> substring_of a (String c s).
Proof. intros (p & q & ->). by exists (String c p), q. Qed.

Lemma substring_of_prefix (a post : string) : substring_of a (a +:+ post).
Proof. by exists EmptyString, post. Qed.

Lemma lstrip_substring (s : string) : substring_of (lstrip s) s.
Proof.
  induction s as [|c s IH]; simpl; [apply substring_of_refl|].
  destruct (isspace c); [by apply substring_of_cons|apply substring_of_refl].
Qed.

Lemma rstrip_prefix (s : string) : exists post, s = rstrip s +:+ post.
Proof.
  induction s as [|c s [post IH]]; simpl; [by exists EmptyString|].
  destruct (rstrip s) as [|d r] eqn:Hr.
  - destruct (isspace c).
    + by exists (String c s).
    + exists s. done.
  - exists post. rewrite append_cons. f_equal. exact IH.
Qed.

Lemma strip_substring (s : string) : substring_of (strip s) s.
Proof.
  unfold strip. eapply substring_of_trans; [|apply lstrip_substring].
  destruct (rstrip_prefix (lstrip s)) as [post Hpost].
  rewrite Hpost at 2. apply substring_of_prefix.
Qed.

Lemma literal_rest (ic : bool) (p s rest : string) :
  re.literal ic p s = Some rest -> substring_of rest s.
Proof.
  revert s. induction p as [|a p IH]; intros s; simpl.
  - intros [= ->]. apply substring_of_refl.
  - destruct s as [|b s]; [done|].
    destruct (re.char_eq ic a b); [|done].
    intros H. by apply substring_of_cons, IH.
Qed.

Lemma lazy_group_prefix (s g : string) (n : nat) :
  JSON_CODE_BLOCK_RE.lazy_group s = Some (g, n) -> exists post, s = g +:+ post.
Proof.
  revert g n. induction s as [|c s IH]; intros g n.
  - simpl. done.
  - change (JSON_CODE_BLOCK_RE.lazy_group (String c s)) with
      (match re.literal true JSON_CODE_BLOCK_RE.fence (String c s) with
       | Some _ => Some (EmptyString, 3%nat)
       | None =>
           match JSON_CODE_BLOCK_RE.lazy_group s with
           | Some (g, n) => Some (String c g, S n)
           | None => None
           end
       end).
    destruct (re.literal true JSON_CODE_BLOCK_RE.fence (String c s)).
    + intros [= <- <-]. by exists (String c s).
    + destruct (JSON_CODE_BLOCK_RE.lazy_group s) as [[g' n']|]; [|done].
      intros [= <- <-]. destruct (IH g' n' eq_refl) as [post ->].
      by exists post.
Qed.

Lemma lazy_group_substring (s g : string) (n : nat) :
  JSON_CODE_BLOCK_RE.lazy_group s = Some (g, n) -> substring_of g s.
Proof.
  intros H. destruct (lazy_group_prefix _ _ _ H) as [post ->].
  apply substring_of_prefix.
Qed.

Lemma spaces_group_substring (s g : string) (n : nat) :
  JSON_CODE_BLOCK_RE.spaces_group s = Some (g, n) -> substring_of g s.
Proof.
  revert g n. induction s as [|c s IH]; intros g n.
  - apply lazy_group_substring.
  - change (JSON_CODE_BLOCK_RE.spaces_group (String c s)) with
      (if isspace c then
         match JSON_CODE_BLOCK_RE.spaces_group s with
         | Some (g, n) => Some (g, S n)
         | None => JSON_CODE_BLOCK_RE.lazy_group (String c s)
         end
       else JSON_CODE_BLOCK_RE.lazy_group (String c s)).
    destruct (isspace c); [|apply lazy_group_substring].
    destruct (JSON_CODE_BLOCK_RE.spaces_group s) as [[g' n']|]; [|apply lazy_group_substring].
    intros [= <- <-]. by eapply substring_of_cons, IH.
Qed.

Lemma tag_group_substring (s g : string) (n : nat) :
  JSON_CODE_BLOCK_RE.tag_group s = Some (g, n) -> substring_of g s.
Proof.
  unfold JSON_CODE_BLOCK_RE.tag_group.
  destruct (re.literal true "json" s) as [s'|] eqn:Hs;
    [|apply spaces_group_substring].
  destruct (JSON_CODE_BLOCK_RE.spaces_group s') as [[g' n']|] eqn:Hg;
    [|apply spaces_group_substring].
  intros [= <- <-].
  eapply substring_of_trans; [by eapply spaces_group_substring|].
  by eapply literal_rest.
Qed.

Lemma match_at_substring (s g : string) (n : nat) :
  JSON_CODE_BLOCK_RE.match_at s = Some (g, n) -> substring_of g s.
Proof.
  unfold JSON_CODE_BLOCK_RE.match_at.
  destruct (re.literal true JSON_CODE_BLOCK_RE.fence s) as [s'|] eqn:Hs; [|done].
  destruct (JSON_CODE_BLOCK_RE.tag_group s') as [[g' n']|] eqn:Hg; [|done].
  intros [= <- <-].
  eapply substring_of_trans; [by eapply tag_group_substring|].
  by eapply literal_rest.
Qed.

Lemma finditer_from_substring (s g : string) (skip : nat) :
  g ∈ JSON_CODE_BLOCK_RE.finditer_from skip s -> substring_of g s.
Proof.
  revert skip. induction s as [|c s IH]; intros skip.
  - destruct skip; simpl; by intros ?%elem_of_nil.
  - destruct skip as [|k].
    + change (JSON_CODE_BLOCK_RE.finditer_from 0 (String c s)) with
        (match JSON_CODE_BLOCK_RE.match_at (String c s) with
         | Some (g, n) => g :: JSON_CODE_BLOCK_RE.finditer_from (Nat.pred n) s
         | None => JSON_CODE_BLOCK_RE.finditer_from 0 s
         end).
      destruct (JSON_CODE_BLOCK_RE.match_at (String c s)) as [[g' n']|] eqn:Hm.
      * intros [->|Hg]%elem_of_cons.
        -- by eapply match_at_substring.
        -- by eapply substring_of_cons, IH.
      * intros Hg. by eapply substring_of_cons, IH.
    + simpl. intros Hg. by eapply substring_of_cons, IH.
Qed.

Lemma finditer_substring (text g : string) :
  g ∈ JSON_CODE_BLOCK_RE.finditer text -> substring_of g text.
Proof. apply finditer_from_substring. Qed.

End substrings.

(** ** The fenced blocks *)

Section fenced_blocks.

Variable json_loads : string -> result pyval.

Lemma str_empty_false (s : string) : s <> EmptyString -> str_empty s = false.
Proof. by destruct s. Qed.



End fenced_blocks.

(** ** A single fenced block *)

Section single_block.

Import JSON_CODE_BLOCK_RE.

Lemma not_backtick_no_fence (c : ascii) (s : string) :
  Ascii.eqb c "`" = false -> re.literal true fence (String c s) = None.
Proof.
  intros Hc. unfold fence.
  change (re.literal true "```" (String c s)) with
    (if re.char_eq true "`" c then re.literal true "``" s else None).
  destruct (re.char_eq true "`" c) eqn:He; [|done].
  exfalso. revert Hc He.
  destruct c as [[] [] [] [] [] [] [] []]; by vm_compute.
Qed.

Lemma no_backtick_cons (c : ascii) (s : string) :
  no_backtick (String c s) -> Ascii.eqb c "`" = false /\ no_backtick s.
Proof.
  unfold no_backtick. simpl. by destruct (Ascii.eqb c "`").
Qed.









Lemma finditer_prose (prose rest : string) :
  no_backtick prose ->
  finditer_from 0 (prose +:+ rest) = finditer_from 0 rest.
Proof.
  induction prose as [|c prose IH]; [done|].
  intros [Hc Hprose]%no_backtick_cons. rewrite append_cons.
  change (finditer_from 0 (String c (prose +:+ rest))) with
    (match match_at (String c (prose +:+ rest)) with
     | Some (g, n) => g :: finditer_from (Nat.pred n) (prose +:+ rest)
     | None => finditer_from 0 (prose +:+ rest)
     end).
  unfold match_at. rewrite (not_backtick_no_fence _ _ Hc). by apply IH.
Qed.



End single_block.



(** The inner texts of [matches] are the groups of [finditer]. *)
Lemma matches_groups (skip : nat) (s : string) :
  map snd (matches_from skip s) = JSON_CODE_BLOCK_RE.finditer_from skip s.
Proof.
  revert skip. induction s as [|c s IH]; intros [|k]; cbn; try done.
  destruct (JSON_CODE_BLOCK_RE.match_at (String c s)) as [[g n]|]; cbn;
    by rewrite IH.
Qed.




(** ** The brace scan *)

Section brace_scan.








Lemma candidate_at_shift (c : ascii) (s : string) (i : nat) :
  candidate_at (String c s) (S i) = candidate_at s i.
Proof. reflexivity. Qed.


End brace_scan.



(** The candidates are cut by the count of the braces alone: an object
    with a brace inside a string is a candidate only if the depth first
    comes back to zero at its own closing brace. *)
Remark brace_inside_a_string :
  json.loads (js "{'a':'}{'}") = Ok (PDict [("a", PStr "}{")])
  /\ brace_candidates (js "x {'a':'}{'}") = [js "{'a':'}"; js "{'}"]
  /\ extract_json_payload json.loads (js "x {'a':'}{'}") = Ok (None, None).
Proof. vm_compute. repeat split. Qed.

(** ** The scan of the steps *)

Section step_scan.

Variable json_loads : string -> result pyval.








End step_scan.



(** ** The records the converter writes *)

Section written_records.

Variable json_loads : string -> result pyval.

Lemma convert_ordered (stem : string) (bench_record d : pydict)
  (r : output_record) (missing : bool) :
  convert json_loads stem bench_record (PDict d) = Ok (r, missing) ->
  parse_trajectories.instance_id r = stem
  /\ exists payload raw,
       select_payload json_loads (dict_get_or d "trajectory" (PList []))
       = Ok (payload, raw, missing)
       /\ ordered_sets payload r.
Proof.
  unfold convert. cbn [bind].
  destruct (select_payload json_loads _) as [[[payload raw] miss]|]; [|done].
  cbn [bind].
  destruct (found_lists payload) as [[files modules] entities] eqn:Hlists.
  intros [= <- <-]. split; [done|]. exists payload, raw. split; [done|].
  by eapply found_lists_ordered.
Qed.

Lemma convert_files_ordered (bench_data : gmap string pydict)
  (all files : list traj_file) (out : list output_record) (missing_payload : Z)
  (err : list string) :
  (forall f, f ∈ files -> f ∈ all) ->
  Forall (ordered_record json_loads all) out ->
  Forall (ordered_record json_loads all)
    (convert_files json_loads bench_data files out missing_payload err).1.1.1.
Proof.
  revert out missing_payload err.
  induction files as [|f files IH]; intros out missing_payload err Hall Hout;
    cbn [convert_files]; [done|].
  assert (forall f', f' ∈ files -> f' ∈ all) as Hrest
    by (intros f' Hf'; apply Hall; by right).
  destruct (bench_data !! traj_stem f) as [bench_record|]; [|by apply IH].
  destruct (json_loads (traj_text f)) as [traj_data|[]] eqn:Hj;
    cbn [catch_decode_error]; try done; [|by apply IH].
  destruct (convert json_loads (traj_stem f) bench_record traj_data)
    as [[r missing]|e] eqn:Hconv; [|done].
  apply IH; [done|]. apply Forall_app. split; [done|].
  constructor; [|constructor].
  destruct traj_data as [| | | | | |d]; try done.
  apply convert_ordered in Hconv as (Hid & payload & raw & Hsel & Hord).
  exists f, payload. split; [apply Hall; left|]. split; [done|].
  split; [|done]. unfold file_payload. by rewrite Hj, Hsel.
Qed.

End written_records.

(** C8.  The three lists the converter makes from a payload are the
    ordered sets of their source values, for every payload; and every
    record the Trajectory Converter writes is made for one of the
    trajectory files, under its stem: [found_files], [found_modules] and
    [found_entities] have no repeated string, and each is the list of its
    source values in the payload of that file, every value at the place
    where it is first seen. *)
Theorem written_records_ordered (json_loads : string -> result pyval)
  (traj_dir dataset output : string) (traj_dir_exists dataset_exists : bool)
  (dataset_lines : list string) (traj_files : list traj_file) :
  (forall payload : pydict,
     found_lists payload
     = (dedup_first (files_source payload),
        dedup_first (modules_source payload),
        dedup_first (entities_source payload)))
  /\ (forall records : list output_record,
        parse_trajectories.written
          (parse_trajectories.main json_loads traj_dir dataset output
             traj_dir_exists dataset_exists dataset_lines traj_files)
        = Some records ->
        Forall (ordered_record json_loads traj_files) records).
Proof.
  split; [apply found_lists_spec|]. intros records.
  unfold parse_trajectories.main.
  destruct (negb traj_dir_exists); [done|].
  destruct (negb dataset_exists); [done|].
  destruct (bind _ _) as [bench_data|e]; [|done].
  destruct traj_files as [|f files]; [done|].
  pose proof (convert_files_ordered json_loads bench_data (f :: files)
                (f :: files) [] 0 [] (fun _ H => H) (Forall_nil_2 _)) as Hall.
  destruct (convert_files json_loads bench_data (f :: files) [] 0 [])
    as [[[out missing_payload] err] [e|]]; simpl in *;
    by intros [= <-].
Qed.

Lemma written_records_ordered_witness :
  Forall (ordered_record json.loads [ex_traj_entities])
    [{| parse_trajectories.instance_id := "x1";
        found_files := ["a/b.py"; "c/d.py"];
        found_modules := ["a/b.py:Foo"; "c/d.py:Qux"];
        found_entities := ["a/b.py:Foo.bar"; "a/b.py:Foo.baz"; "c/d.py:Qux"];
        raw_output_loc :=
          [PStr (js "{'found_entities': ['a/b.py:Foo.bar', ' a/b.py:Foo.baz', 'c/d.py:Qux', 'a/b.py:Foo.bar']}")];
        meta_data := [("repo", PStr "org/repo")] |}].
Proof.
  apply (proj2 (written_records_ordered json.loads "trajs" "data.jsonl"
                  "out.jsonl" true true
                  [(js "{'instance_id': 'x1', 'repo': 'org/repo'}")]
                  [ex_traj_entities])).
  vm_compute. reflexivity.
Defined.

(** ** The loop of the Instance Builder *)

Section builder_loop.

Variable path_join : string -> string -> string.
Variable path_exists : string -> bool.

Local Abbreviation body := (pi.body path_join path_exists).
Local Abbreviation loop := (pi.loop path_join path_exists).
Local Abbreviation emit := (emitted path_join path_exists).
Local Abbreviation missing := (missing_slug path_join path_exists).
Local Abbreviation step := (step_of path_join path_exists).

Local Arguments replace : simpl never.

(** An iteration does what the record contributes, unless it raises; it
    does not raise on a well-formed record. *)
Lemma body_spec (a : pi.args) (regex : option (string -> bool))
  (st : pi.state) (record : pyval) :
  match body a regex st record with
  | pi.Fail _ => well_formed record = false
  | r => r = step a regex st record
  end.
Proof.
  unfold pi.body, step_of, emitted, missing_slug,
    survivor, passes, pi.filtered_out, well_formed, str_or_false, get,
    pi.build_repo_path, task_instance, mirror, after_emit, after_missing.
  destruct record as [| | | | | |d]; try done. cbv beta iota.
  destruct (dict_get d "instance_id") as [|[]|n|[]|[|c s]|[|x l]|[|x l]] eqn:Hid;
    destruct regex as [search|];
    destruct (dict_get d "repo") as [|[]|m|[]|[|c' s']|[|x' l']|[|x' l']];
    simpl; rewrite ?Hid; try done;
    repeat match goal with
      | |- context [(?k =? 0)%Z] => destruct (k =? 0)%Z; simpl; try done
      | |- context [search ?t] => destruct (search t); simpl; try done
      | |- context [path_exists ?q] => destruct (path_exists q); simpl; try done
      | |- context [pi.skip_missing a] =>
          destruct (pi.skip_missing a); simpl; try done
      | |- context [pi.limit_reached a ?k] =>
          destruct (pi.limit_reached a k); simpl; try done
      end.
  all: by rewrite ?Hid.
Qed.

Lemma omap_cons {A B : Type} (f : A -> option B) (x : A) (l : list A) :
  omap f (x :: l) = match f x with
                    | Some y => y :: omap f l
                    | None => omap f l
                    end.
Proof. reflexivity. Qed.

Lemma room_next (a : pi.args) (c : Z) {A : Type} (x : A) (l : list A) :
  pi.limit_reached a (c + 1) = false ->
  up_to (room (pi.limit a) c) (x :: l)
  = x :: up_to (room (pi.limit a) (c + 1)) l.
Proof.
  unfold pi.limit_reached, room. destruct (pi.limit a) as [lim|]; [|done].
  destruct (lim =? 0)%Z eqn:Hz; [done|]. simpl. intros Hle.
  replace (Z.to_nat (Z.max 1 (lim - c)))
    with (S (Z.to_nat (Z.max 1 (lim - (c + 1))))) by lia.
  done.
Qed.

Lemma room_last (a : pi.args) (c : Z) {A : Type} (x : A) (l : list A) :
  pi.limit_reached a (c + 1) = true ->
  up_to (room (pi.limit a) c) (x :: l) = [x].
Proof.
  unfold pi.limit_reached, room. destruct (pi.limit a) as [lim|]; [|done].
  destruct (lim =? 0)%Z eqn:Hz; [done|]. simpl. intros Hle.
  replace (Z.to_nat (Z.max 1 (lim - c))) with 1%nat by lia.
  done.
Qed.

Lemma up_to_nil {A : Type} (r : option nat) : up_to r (@nil A) = [].
Proof. destruct r as [[|n]|]; done. Qed.

Lemma emitted_not_missing (a : pi.args) (regex : option (string -> bool))
  (item : result pyval) (inst : pi.instance) :
  emit a regex item = Some inst -> missing a regex item = None.
Proof.
  unfold emitted, missing_slug.
  destruct (survivor regex item) as [[d slug]|]; [|done].
  by destruct (path_exists (mirror path_join a slug)).
Qed.

(** The lines a run has written when its loop ends without an exception:
    what the records contribute, as far as the limit allows. *)
Lemma loop_out (a : pi.args) (regex : option (string -> bool))
  (items : list (result pyval)) (st st' : pi.state) :
  loop a regex items st = (st', None) ->
  pi.out st'
  = pi.out st ++ up_to (room (pi.limit a) (pi.count st))
                       (omap (emit a regex) items).
Proof.
  revert st. induction items as [|[record|e] items IH]; intros st.
  - intros [= <-].
    change (omap (emit a regex) []) with (@nil pi.instance).
    by rewrite up_to_nil, app_nil_r.
  - cbn [pi.loop]. rewrite omap_cons.
    pose proof (body_spec a regex st record) as Hbody.
    destruct (body a regex st record) as [st1|st1|e]; [| |done].
    + intros Hloop. rewrite (IH _ Hloop).
      unfold step_of in Hbody.
      destruct (emit a regex (Ok record)) as [inst|].
      * destruct (pi.limit_reached a (pi.count st + 1)) eqn:Hlim; [done|].
        injection Hbody as ->. simpl.
        by rewrite (room_next _ _ _ _ Hlim), <- app_assoc.
      * destruct (missing a regex (Ok record)) as [slug|];
          injection Hbody as ->; [|done].
        unfold after_missing. by destruct (pi.skip_missing a).
    + intros [= <-]. unfold step_of in Hbody.
      destruct (emit a regex (Ok record)) as [inst|].
      * destruct (pi.limit_reached a (pi.count st + 1)) eqn:Hlim; [|done].
        injection Hbody as ->. simpl. by rewrite (room_last _ _ _ _ Hlim).
      * by destruct (missing a regex (Ok record)).
  - done.
Qed.



(** A record the loop passes over leaves the run as it is. *)
Lemma loop_without (a : pi.args) (regex : option (string -> bool))
  (pre post : list (result pyval)) (record : pyval) :
  (forall st, body a regex st record = pi.Next st) ->
  forall st,
    loop a regex (pre ++ Ok record :: post) st = loop a regex (pre ++ post) st.
Proof.
  intros Hbody. induction pre as [|[r|e] pre IH]; intros st; simpl.
  - by rewrite Hbody.
  - destruct (body a regex st r); [apply IH|done|done].
  - done.
Qed.

End builder_loop.

(** ** The runs of the Instance Builder *)

Section builder_runs.

Variable json_loads : string -> result pyval.
Variable path_join : string -> string -> string.
Variable path_exists : string -> bool.
Variable re_compile : string -> option (string -> bool).

Local Abbreviation main := (pi.main json_loads path_join path_exists re_compile).
Local Abbreviation main_items := (pi.main_items path_join path_exists re_compile).
Local Abbreviation loop := (pi.loop path_join path_exists).
Local Abbreviation emit := (emitted path_join path_exists).
Local Abbreviation missing := (missing_slug path_join path_exists).



Lemma main_items_exit_3 (a : pi.args) (regex : option (string -> bool))
  (items : list (result pyval)) :
  pi.compile_filter re_compile a = Ok regex ->
  pi.exit (main_items a items) = Ok 3%Z ->
  pi.written (main_items a items)
  = Some (up_to (room (pi.limit a) 0) (omap (emit a regex) items)).
Proof.
  intros Hregex. unfold pi.main_items. rewrite Hregex.
  destruct (loop a regex items pi.init) as [st [e|]] eqn:Hloop; [done|].
  destruct (pi.missing_repos st); [done|].
  destruct (pi.skip_missing a); [done|].
  intros _. cbn [pi.written].
  by rewrite (loop_out path_join path_exists a regex _ _ _ Hloop).
Qed.

Lemma main_items_without (a : pi.args) (d : pydict)
  (pre post : list (result pyval)) :
  truthy (dict_get d "instance_id") = true ->
  (forall regex, pi.compile_filter re_compile a = Ok regex ->
                 pi.filtered_out regex (dict_get d "instance_id") = Ok false) ->
  truthy (dict_get d "repo") = false ->
  main_items a (pre ++ Ok (PDict d) :: post) = main_items a (pre ++ post).
Proof.
  intros Hid Hpass Hrepo. unfold pi.main_items.
  destruct (pi.compile_filter re_compile a) as [regex|e] eqn:Hregex; [|done].
  rewrite (loop_without path_join path_exists a regex pre post (PDict d));
    [done|].
  intros st. unfold pi.body. cbn [get].
  by rewrite Hid, (Hpass regex eq_refl), Hrepo.
Qed.

End builder_runs.




(** C9, as the code has it.  When the run exits with code 3, the output
    file holds the instance of every surviving record whose mirror exists,
    as far as the limit allows: the failure takes nothing back. *)
Theorem failure_keeps_the_output
  (json_loads : string -> result pyval)
  (path_join : string -> string -> string) (path_exists : string -> bool)
  (re_compile : string -> option (string -> bool))
  (a : pi.args) (lines : list string) (regex : option (string -> bool)) :
  pi.compile_filter re_compile a = Ok regex ->
  pi.exit (pi.main json_loads path_join path_exists re_compile a lines)
  = Ok 3%Z ->
  pi.written (pi.main json_loads path_join path_exists re_compile a lines)
  = Some (up_to (room (pi.limit a) 0)
            (omap (emitted path_join path_exists a regex)
                  (pi.load_jsonl json_loads (pi.dataset a) lines))).
Proof.
  intros Hregex. unfold pi.main.
  destruct (negb (path_exists (pi.dataset a))); [done|].
  destruct (negb (path_exists (pi.repo_root a))); [done|].
  by apply main_items_exit_3.
Qed.

Lemma failure_keeps_the_output_witness :
  pi.written (pi.main json.loads ex_join ex_exists ex_compile
                (ex_args (Some "1") (Some 2%Z) false)
                [line_a; line_m; line_b; line_a])
  = Some [task_instance ex_join (ex_args (Some "1") (Some 2%Z) false)
            record_a "org/a";
          task_instance ex_join (ex_args (Some "1") (Some 2%Z) false)
            record_b "org/b"].
Proof.
  apply (failure_keeps_the_output json.loads ex_join ex_exists ex_compile
           (ex_args (Some "1") (Some 2%Z) false)
           [line_a; line_m; line_b; line_a] (Some (occurs "1"))).
  - reflexivity.
  - reflexivity.
Defined.

(** C9 as it is stated fails when the limit stops the scan: the run exits
    with code 3, the last record survives and its mirror exists, and the
    output has the line of the first instance only. *)
Lemma limit_leaves_a_record_out :
  pi.exit (pi.main json.loads ex_join ex_exists ex_compile
             (ex_args None (Some 1%Z) false) [line_m; line_a; line_b])
  = Ok 3%Z
  /\ emitted ex_join ex_exists (ex_args None (Some 1%Z) false) None
       (Ok (PDict record_b))
     = Some (task_instance ex_join (ex_args None (Some 1%Z) false)
               record_b "org/b")
  /\ pi.written (pi.main json.loads ex_join ex_exists ex_compile
                   (ex_args None (Some 1%Z) false) [line_m; line_a; line_b])
     = Some [task_instance ex_join (ex_args None (Some 1%Z) false)
               record_a "org/a"].
Proof. vm_compute. repeat split. Qed.

(** C10. A record with a non-empty [instance_id] that passes the filter
    and with no [repo], or an empty one, changes nothing: the run is the
    run without it, in the lines written, in the report of the missing
    repositories and in the exit code. *)
Theorem record_without_repo_is_skipped
  (path_join : string -> string -> string) (path_exists : string -> bool)
  (re_compile : string -> option (string -> bool))
  (a : pi.args) (d : pydict) (pre post : list (result pyval)) :
  truthy (dict_get d "instance_id") = true ->
  (forall regex, pi.compile_filter re_compile a = Ok regex ->
                 pi.filtered_out regex (dict_get d "instance_id") = Ok false) ->
  truthy (dict_get d "repo") = false ->
  pi.main_items path_join path_exists re_compile a (pre ++ Ok (PDict d) :: post)
  = pi.main_items path_join path_exists re_compile a (pre ++ post).
Proof. apply main_items_without. Qed.

Lemma record_without_repo_is_skipped_witness :
  pi.main_items ex_join ex_exists ex_compile (ex_args (Some "1") None false)
    ([Ok (PDict record_a)] ++ Ok (PDict record_norepo) :: [Ok (PDict record_m)])
  = pi.main_items ex_join ex_exists ex_compile (ex_args (Some "1") None false)
      ([Ok (PDict record_a)] ++ [Ok (PDict record_m)]).
Proof.
  apply (record_without_repo_is_skipped ex_join ex_exists ex_compile
           (ex_args (Some "1") None false) record_norepo).
  - reflexivity.
  - intros regex Hregex. vm_compute in Hregex. injection Hregex as <-.
    reflexivity.
  - reflexivity.
Defined.

(** ** More about the normaliser *)

Section normaliser_members.

(** X1. The list [normalize_list] returns for a sequence has no repeated
    string, and its members are the trimmed forms of the string elements
    of the sequence that are not empty once trimmed: nothing else gets in,
    none of them is left out. *)
Theorem normalize_list_members (items : list pyval) :
  NoDup (normalize_list (PList items))
  /\ forall x : string,
       x ∈ normalize_list (PList items)
       <-> exists s, PStr s ∈ items /\ x = strip s /\ x <> EmptyString.
Proof.
  split; [apply normalize_list_NoDup|].
  intros x. rewrite normalize_list_spec, dedup_first_elem,
    omap_cleaned_elements, list_elem_of_omap.
  split.
  - intros (item & Hitem & Hclean). destruct item; try done.
    exists s. simpl in Hclean.
    destruct (str_empty (strip s)) eqn:He; [done|].
    injection Hclean as <-. repeat split; [done|].
    intros Hs. by rewrite Hs in He.
  - intros (s & Hs & -> & Hne). exists (PStr s). split; [done|].
    simpl. by rewrite (str_empty_false _ Hne).
Qed.

(** X2. A value that is not a sequence: a string is normalised as the
    sequence of that one string, any other value gives the empty list. *)
Theorem normalize_list_scalar (value : pyval) :
  match value with
  | PList _ => True
  | PStr s =>
      normalize_list value = normalize_list (PList [PStr s])
      /\ normalize_list value
         = if str_empty (strip s) then [] else [strip s]
  | _ => normalize_list value = []
  end.
Proof.
  destruct value as [|b|n|nz|s|l|d]; try done.
  - unfold normalize_list. by destruct (truthy (PBool b)).
  - unfold normalize_list. by destruct (truthy (PInt n)).
  - unfold normalize_list. by destruct (truthy (PFloat nz)).
  - unfold normalize_list. destruct s as [|c s]; [done|].
    change (truthy (PStr (String c s))) with true.
    change (truthy (PList [PStr (String c s)])) with true.
    split; [done|]. cbn [negb fold_left normalize_item].
    destruct (str_empty (strip (String c s))); [done|].
    cbn [orb]. by case_bool_decide.
  - unfold normalize_list. by destruct (truthy (PDict d)).
Qed.

End normaliser_members.

(** ** More about the module derivation *)

Section module_prefix.

Lemma before_after (c : ascii) (s : string) :
  contains c s = true -> s = before c s +:+ String c (after c s).
Proof.
  induction s as [|a s IH]; simpl; [done|].
  destruct (Ascii.eqb_spec a c) as [->|Hac]; [done|].
  intros Hc. rewrite append_cons. f_equal. by apply IH.
Qed.

Lemma before_prefix (c : ascii) (s : string) :
  exists rest, s = before c s +:+ rest.
Proof.
  induction s as [|a s [rest IH]]; simpl; [by exists EmptyString|].
  destruct (Ascii.eqb a c); [by exists (String a s)|].
  exists rest. rewrite append_cons. by f_equal.
Qed.

Lemma module_id_prefix (entity m : string) :
  module_id entity = Some m ->
  contains ":" entity = true /\ exists rest, entity = m +:+ rest.
Proof.
  unfold module_id. destruct (contains ":" entity) eqn:Hc; [|done].
  pose proof (before_after _ _ Hc) as Hsplit.
  destruct (str_empty (before "." (after ":" entity))) eqn:He;
    intros [= <-]; (split; [done|]).
  - by exists (String ":" (after ":" entity)).
  - destruct (before_prefix "." (after ":" entity)) as [rest Hrest].
    exists rest. rewrite !append_assoc. rewrite Hsplit at 1.
    f_equal. rewrite append_cons, append_nil_l. f_equal. exact Hrest.
Qed.

Lemma omap_length {A B : Type} (f : A -> option B) (l : list A) :
  length (omap f l) <= length l.
Proof.
  induction l as [|x l IH]; [done|].
  rewrite omap_cons. destruct (f x); simpl; lia.
Qed.

(** X3. The modules derived from a list of entities are pairwise different,
    no more than the entities, and each of them is the beginning of an
    entity of the list that has a colon: the derivation only cuts entities
    short. *)
Theorem entities_to_modules_prefixes (found_entities : list string) :
  NoDup (entities_to_modules found_entities)
  /\ length (entities_to_modules found_entities) <= length found_entities
  /\ forall m : string,
       m ∈ entities_to_modules found_entities ->
       exists entity rest,
         entity ∈ found_entities /\ contains ":" entity = true
         /\ entity = m +:+ rest.
Proof.
  rewrite entities_to_modules_spec. split; [apply dedup_first_NoDup|]. split.
  - etrans; [apply sublist_length, dedup_first_sublist|].
    apply omap_length.
  - intros m Hm. apply (proj1 (dedup_first_elem _ _)) in Hm.
    apply list_elem_of_omap in Hm as (entity & Hentity & Hid).
    destruct (module_id_prefix _ _ Hid) as (Hc & rest & Hrest).
    by exists entity, rest.
Qed.

End module_prefix.

(** ** More about the candidates of the brace scan *)

Section brace_candidates_shape.

Lemma scan_braces_shape (s : string) (d : Z) (c : string) :
  scan_braces d s = Some c ->
  (exists post, s = c +:+ post)
  /\ (exists mid, c = mid +:+ "}")
  /\ (d + brace_depth c = 0)%Z.
Proof.
  revert d c. induction s as [|a s IH]; intros d c; [done|].
  cbn [scan_braces].
  assert (forall d' x, scan_braces d' s = Some x ->
            (d' = d + (if Ascii.eqb a "{" then 1
                       else if Ascii.eqb a "}" then -1 else 0))%Z ->
            (exists post, String a s = String a x +:+ post)
            /\ (exists mid, String a x = mid +:+ "}")
            /\ (d + brace_depth (String a x) = 0)%Z) as Hstep.
  { intros d' x Hx Hd'.
    destruct (IH _ _ Hx) as ((post & Hpost) & (mid & Hmid) & Hdepth).
    split; [exists post; rewrite append_cons; by f_equal|].
    split; [exists (String a mid); rewrite append_cons; by f_equal|].
    cbn [brace_depth]. lia. }
  destruct (Ascii.eqb a "{") eqn:Hopen.
  - destruct (scan_braces (d + 1) s) as [x|] eqn:Hx; [|done].
    intros [= <-]. by apply (Hstep _ _ Hx).
  - destruct (Ascii.eqb a "}") eqn:Hclose.
    + destruct (d - 1 =? 0)%Z eqn:Hz.
      * intros [= <-]. split; [by exists s|].
        split.
        { exists EmptyString.
          by rewrite (proj1 (Ascii.eqb_eq _ _) Hclose). }
        cbn [brace_depth]. rewrite Hopen, Hclose. lia.
      * destruct (scan_braces (d - 1) s) as [x|] eqn:Hx; [|done].
        intros [= <-]. apply (Hstep _ _ Hx). lia.
    + destruct (scan_braces d s) as [x|] eqn:Hx; [|done].
      intros [= <-]. apply (Hstep _ _ Hx). lia.
Qed.

Lemma iter_json_substrings_substring (text c : string) :
  c ∈ _iter_json_substrings text -> substring_of c text.
Proof.
  induction text as [|a s IH]; [by intros ?%elem_of_nil|].
  change (_iter_json_substrings (String a s)) with
    ((if Ascii.eqb a "{" then
        match scan_braces 0 (String a s) with
        | Some sub => [sub]
        | None => []
        end
      else []) ++ _iter_json_substrings s).
  intros [Hhere|Hlater]%elem_of_app.
  - destruct (Ascii.eqb a "{"); [|by apply elem_of_nil in Hhere].
    destruct (scan_braces 0 (String a s)) as [sub|] eqn:Hscan;
      [|by apply elem_of_nil in Hhere].
    apply list_elem_of_singleton in Hhere as ->.
    destruct (scan_braces_shape _ _ _ Hscan) as ((post & Hpost) & _).
    rewrite Hpost. apply substring_of_prefix.
  - by apply substring_of_cons, IH.
Qed.

(** X4. Every substring the brace scan yields occurs in the text, starts
    with an opening brace, ends with a closing brace and has as many
    opening as closing braces. *)
Theorem iter_json_substrings_shape (text c : string) :
  c ∈ _iter_json_substrings text ->
  substring_of c text
  /\ (exists mid, c = String "{" mid)
  /\ (exists mid, c = mid +:+ "}")
  /\ brace_depth c = 0%Z.
Proof.
  induction text as [|a s IH]; [by intros ?%elem_of_nil|].
  change (_iter_json_substrings (String a s)) with
    ((if Ascii.eqb a "{" then
        match scan_braces 0 (String a s) with
        | Some sub => [sub]
        | None => []
        end
      else []) ++ _iter_json_substrings s).
  intros [Hhere|Hlater]%elem_of_app.
  - destruct (Ascii.eqb_spec a "{") as [->|]; [|by apply elem_of_nil in Hhere].
    destruct (scan_braces 0 (String "{" s)) as [sub|] eqn:Hscan;
      [|by apply elem_of_nil in Hhere].
    apply list_elem_of_singleton in Hhere as ->.
    destruct (scan_braces_shape _ _ _ Hscan)
      as ((post & Hpost) & Hend & Hdepth).
    split; [rewrite Hpost; apply substring_of_prefix|].
    split; [|split; [done|lia]].
    cbn [scan_braces] in Hscan. change (Ascii.eqb "{" "{") with true in Hscan.
    destruct (scan_braces (0 + 1) s) as [x|]; [|done].
    injection Hscan as <-. by exists x.
  - destruct (IH Hlater) as (Hsub & Hrest). split; [|done].
    by apply substring_of_cons.
Qed.

Lemma iter_json_substrings_shape_witness :
  substring_of "{b{c}}" "a}{b{c}}d{"
  /\ (exists mid, "{b{c}}" = String "{" mid)
  /\ (exists mid, "{b{c}}" = mid +:+ "}")
  /\ brace_depth "{b{c}}" = 0%Z.
Proof.
  apply (iter_json_substrings_shape "a}{b{c}}d{" "{b{c}}").
  vm_compute. apply list_elem_of_here.
Defined.

End brace_candidates_shape.

(** ** More about the pattern of fenced blocks *)

Section unclosed_fences.

Import JSON_CODE_BLOCK_RE.

Lemma backtick_char_eq (c : ascii) :
  Ascii.eqb c "`" = false -> re.char_eq true "`" c = false.
Proof.
  intros Hc. destruct (re.char_eq true "`" c) eqn:He; [|done].
  exfalso. revert Hc He.
  destruct c as [[] [] [] [] [] [] [] []]; by vm_compute.
Qed.

Lemma lazy_group_none (b : string) : no_backtick b -> lazy_group b = None.
Proof.
  induction b as [|c b IH]; [done|].
  intros [Hc Hb]%no_backtick_cons.
  change (lazy_group (String c b)) with
    (match re.literal true fence (String c b) with
     | Some _ => Some (EmptyString, 3%nat)
     | None =>
         match lazy_group b with
         | Some (g, n) => Some (String c g, S n)
         | None => None
         end
     end).
  by rewrite (not_backtick_no_fence _ _ Hc), (IH Hb).
Qed.

Lemma spaces_group_none (b : string) : no_backtick b -> spaces_group b = None.
Proof.
  induction b as [|c b IH]; [done|].
  intros Hcb. pose proof Hcb as [Hc Hb]%no_backtick_cons.
  change (spaces_group (String c b)) with
    (if isspace c then
       match spaces_group b with
       | Some (g, n) => Some (g, S n)
       | None => lazy_group (String c b)
       end
     else lazy_group (String c b)).
  rewrite (IH Hb), (lazy_group_none _ Hcb). by destruct (isspace c).
Qed.

Lemma literal_no_backtick (ic : bool) (p s rest : string) :
  re.literal ic p s = Some rest -> no_backtick s -> no_backtick rest.
Proof.
  revert s. induction p as [|a p IH]; intros s; simpl.
  - by intros [= ->].
  - destruct s as [|b s]; [done|].
    destruct (re.char_eq ic a b); [|done].
    intros Hrest [_ Hs]%no_backtick_cons. by eapply IH.
Qed.

Lemma tag_group_none (b : string) : no_backtick b -> tag_group b = None.
Proof.
  intros Hb. unfold tag_group.
  destruct (re.literal true "json" b) as [rest|] eqn:Hrest.
  - rewrite (spaces_group_none rest) by by eapply literal_no_backtick.
    by apply spaces_group_none.
  - by apply spaces_group_none.
Qed.

Lemma short_fence_none (ticks body : string) :
  ticks = "`" \/ ticks = "``" -> no_backtick body ->
  re.literal true fence (ticks +:+ body) = None.
Proof.
  intros Hticks Hbody.
  destruct body as [|c body].
  - by destruct Hticks as [->| ->].
  - apply no_backtick_cons in Hbody as [Hc _].
    destruct Hticks as [->| ->].
    + change (re.literal true fence ("`" +:+ String c body)) with
        (if re.char_eq true "`" c then re.literal true "`" body else None).
      by rewrite (backtick_char_eq _ Hc).
    + change (re.literal true fence ("``" +:+ String c body)) with
        (if re.char_eq true "`" c then Some body else None).
      by rewrite (backtick_char_eq _ Hc).
Qed.

Lemma finditer_no_backtick (s : string) : no_backtick s -> finditer s = [].
Proof.
  intros Hs. unfold finditer. rewrite <- (append_nil_r s).
  by rewrite (finditer_prose _ _ Hs).
Qed.

(** X7. The pattern of fenced blocks needs a closing fence: a text without
    a back quote has no match, and neither has a text whose only fence is
    never closed. *)
Theorem unclosed_fence_has_no_match (prose body : string) :
  no_backtick prose -> no_backtick body ->
  finditer prose = [] /\ finditer (prose +:+ fence +:+ body) = [].
Proof.
  intros Hprose Hbody.
  assert (finditer_from 0 body = []) as Hempty.
  { rewrite <- (append_nil_r body). by rewrite (finditer_prose _ _ Hbody). }
  split.
  - unfold finditer. rewrite <- (append_nil_r prose).
    by rewrite (finditer_prose _ _ Hprose).
  - unfold finditer. rewrite (finditer_prose _ _ Hprose).
    change (fence +:+ body) with (String "`" (String "`" (String "`" body))).
    change (finditer_from 0 (String "`" (String "`" (String "`" body)))) with
      (match match_at (fence +:+ body) with
       | Some (g, n) => g :: finditer_from (Nat.pred n) ("``" +:+ body)
       | None =>
           match match_at ("``" +:+ body) with
           | Some (g, n) => g :: finditer_from (Nat.pred n) ("`" +:+ body)
           | None =>
               match match_at ("`" +:+ body) with
               | Some (g, n) => g :: finditer_from (Nat.pred n) body
               | None => finditer_from 0 body
               end
           end
       end).
    assert (match_at (fence +:+ body) = None) as ->.
    { unfold match_at.
      change (re.literal true fence (fence +:+ body)) with (Some body).
      cbv beta iota. by rewrite (tag_group_none _ Hbody). }
    unfold match_at.
    rewrite (short_fence_none "``" body), (short_fence_none "`" body); auto.
Qed.

Lemma unclosed_fence_has_no_match_witness :
  finditer "The answer: " = []
  /\ finditer ("The answer: " +:+ fence +:+ js "json
{'found_files': ['a.py']}") = [].
Proof.
  apply (unclosed_fence_has_no_match "The answer: "); reflexivity.
Defined.

End unclosed_fences.

(** ** More about the extractor *)

Section extractor_source.

Variable json_loads : string -> result pyval.

Lemma fenced_candidates_substring (text c : string) :
  In c (fenced_candidates text) -> substring_of c text.
Proof.
  unfold fenced_candidates. intros [Hc _]%List.filter_In.
  apply in_map_iff in Hc as (g & <- & Hg).
  eapply substring_of_trans; [apply strip_substring|].
  apply finditer_substring. by apply list_elem_of_In.
Qed.

(** X5. Whatever tier finds it, the source [extract_json_payload] returns
    is a piece of the text it was given, and the payload is the object that
    piece decodes to. *)
Theorem extract_source_in_text (text : string) (payload : pydict)
  (source : string) :
  extract_json_payload json_loads text = Ok (Some payload, Some source) ->
  substring_of source text /\ json_loads source = Ok (PDict payload).
Proof.
  unfold extract_json_payload. destruct (str_empty text); [done|].
  destruct (first_payload json_loads _) as [[[p c]|]|e] eqn:H1; cbn [bind];
    [| |done].
  - intros [= <- <-].
    apply first_payload_sound in H1 as [Hc Hload].
    split; [|by apply try_load_sound].
    destruct (fenced_candidates text) as [|c0 cs] eqn:Hcands.
    + apply list_elem_of_singleton in Hc as ->. apply strip_substring.
    + apply fenced_candidates_substring. rewrite Hcands.
      by apply list_elem_of_In.
  - destruct (first_payload json_loads (_iter_json_substrings text))
      as [[[p c]|]|e] eqn:H2; cbn [bind]; [|done|done].
    intros [= <- <-].
    apply first_payload_sound in H2 as [Hc Hload].
    split; [|by apply try_load_sound].
    by apply iter_json_substrings_substring.
Qed.

(** X6. A text without a back quote that, once trimmed, decodes to an
    object is returned whole: the object and the trimmed text, whatever
    white space surrounds it. *)
Theorem whole_text_object (text : string) (payload : pydict) :
  no_backtick text ->
  strip text <> EmptyString ->
  json_loads (strip text) = Ok (PDict payload) ->
  extract_json_payload json_loads text = Ok (Some payload, Some (strip text)).
Proof.
  intros Hticks Hne Hload. unfold extract_json_payload.
  destruct text as [|a text]; [done|]. cbv beta iota delta [str_empty].
  unfold fenced_candidates.
  rewrite (finditer_no_backtick _ Hticks).
  cbn [map List.filter first_payload]. unfold _try_load_json.
  by rewrite Hload.
Qed.

End extractor_source.

Lemma extract_source_in_text_witness :
  substring_of (js "{'a':1}") (js "result: {'a':1} done")
  /\ json.loads (js "{'a':1}") = Ok (PDict [("a", PInt 1)]).
Proof.
  apply (extract_source_in_text json.loads (js "result: {'a':1} done")).
  reflexivity.
Defined.

Lemma whole_text_object_witness :
  extract_json_payload json.loads (js "
  {'found_files': ['a.py']}  ")
  = Ok (Some [("found_files", PList [PStr "a.py"])],
     Some (js "{'found_files': ['a.py']}")).
Proof.
  apply (whole_text_object json.loads (js "
  {'found_files': ['a.py']}  ")).
  - reflexivity.
  - vm_compute. discriminate.
  - reflexivity.
Defined.

(** ** The metadata of a record *)

Section meta_data_facts.

Lemma dict_get_set (d : pydict) (key k : string) (v default : pyval) :
  dict_get_or (dict_set d key v) k default
  = if String.eqb key k then v else dict_get_or d k default.
Proof.
  induction d as [|[k0 w] d IH]; simpl.
  - by destruct (String.eqb key k).
  - destruct (String.eqb_spec k0 key) as [->|Hk0]; simpl.
    + by destruct (String.eqb key k).
    + destruct (String.eqb_spec k0 k) as [->|Hk].
      * destruct (String.eqb_spec key k) as [->|]; done.
      * exact IH.
Qed.

Lemma dict_has_set (d : pydict) (key k : string) (v : pyval) :
  dict_has (dict_set d key v) k = String.eqb key k || dict_has d k.
Proof.
  induction d as [|[k0 w] d IH]; simpl.
  - by destruct (String.eqb key k).
  - destruct (String.eqb_spec k0 key) as [->|Hk0]; simpl.
    + by destruct (String.eqb key k).
    + destruct (String.eqb_spec k0 k) as [->|Hk].
      * by rewrite orb_true_r.
      * exact IH.
Qed.

Lemma meta_step_fields (record meta : pydict) (key k : string) :
  dict_has (meta_step record meta key) k
  = (String.eqb key k && dict_has record key) || dict_has meta k
  /\ dict_get (meta_step record meta key) k
     = if String.eqb key k && dict_has record key
       then dict_get record key else dict_get meta k.
Proof.
  unfold meta_step, dict_get. destruct (dict_has record key).
  - rewrite dict_has_set, dict_get_set, andb_true_r. done.
  - by rewrite andb_false_r.
Qed.

Lemma build_meta_fold (record : pydict) (keys : list string) (meta : pydict)
  (k : string) :
  dict_has (fold_left (meta_step record) keys meta) k
  = (bool_decide (k ∈ keys) && dict_has record k) || dict_has meta k
  /\ dict_get (fold_left (meta_step record) keys meta) k
     = if bool_decide (k ∈ keys) && dict_has record k
       then dict_get record k else dict_get meta k.
Proof.
  revert meta. induction keys as [|key keys IH]; intros meta; [done|].
  cbn [fold_left]. destruct (IH (meta_step record meta key)) as [-> ->].
  destruct (meta_step_fields record meta key k) as [-> ->].
  destruct (String.eqb_spec key k) as [->|Hne].
  - rewrite (bool_decide_eq_true_2 (k ∈ k :: keys)) by left.
    cbn [andb]. destruct (dict_has record k); [|by rewrite !andb_false_r].
    rewrite andb_true_r. by destruct (bool_decide (k ∈ keys)).
  - assert (bool_decide (k ∈ key :: keys) = bool_decide (k ∈ keys)) as ->.
    { apply bool_decide_ext. rewrite elem_of_cons. naive_solver. }
    done.
Qed.

(** X8. The metadata of an output record has the fields of the Benchmark
    Record that are among the five it copies, with the values they have
    there, and no other field. *)
Theorem build_meta_fields (record : pydict) (k : string) :
  dict_has (build_meta record) k
  = bool_decide (k ∈ meta_keys) && dict_has record k
  /\ dict_get (build_meta record) k
     = if bool_decide (k ∈ meta_keys) && dict_has record k
       then dict_get record k else PNone.
Proof.
  change (build_meta record) with (fold_left (meta_step record) meta_keys []).
  destruct (build_meta_fold record meta_keys [] k) as [Hhas Hget].
  split; [by rewrite Hhas, orb_false_r|exact Hget].
Qed.

End meta_data_facts.

(** ** The loaders of the dataset *)

Section loaders.

Variable json_loads : string -> result pyval.

Lemma load_from_good (path : string) (lines rest : list string) (n : Z) :
  Forall (good_line json_loads) lines ->
  pi.load_jsonl_from json_loads path n (lines ++ rest)
  = map Ok (decoded_lines json_loads lines)
    ++ pi.load_jsonl_from json_loads path (n + Z.of_nat (length lines)) rest
  /\ parse_trajectories.load_jsonl_from json_loads path n (lines ++ rest)
     = let* data := parse_trajectories.load_jsonl_from json_loads path
                      (n + Z.of_nat (length lines)) rest in
       Ok (decoded_lines json_loads lines ++ data).
Proof.
  intros Hgood. revert n.
  induction Hgood as [|line lines Hline _ IH]; intros n.
  - cbn [app length map]. rewrite Z.add_0_r.
    split; [done|]. by destruct (parse_trajectories.load_jsonl_from _ _ _ _).
  - cbn [app pi.load_jsonl_from parse_trajectories.load_jsonl_from].
    unfold decoded_lines. rewrite omap_cons. fold (decoded_lines json_loads lines).
    destruct (IH (n + 1)%Z) as [IH1 IH2]. rewrite IH1, IH2.
    replace (n + 1 + Z.of_nat (length lines))%Z
      with (n + Z.of_nat (length (line :: lines)))%Z by (cbn [length]; lia).
    destruct (str_empty (strip line)) eqn:He; [done|].
    destruct Hline as [Hblank|[v Hv]]; [by rewrite Hblank in He|].
    rewrite Hv. split; [done|]. clear IH IH1 IH2.
    destruct (parse_trajectories.load_jsonl_from json_loads path _ rest);
      reflexivity.
Qed.

(** X9. A line that is not blank and does not decode ends the loading
    with a [ValueError] that names its number, counted from one with the
    blank lines: the generator of the Instance Builder has yielded the
    records of the lines before it by then, the loader of the Trajectory
    Converter returns nothing. *)
Theorem load_jsonl_invalid_line (path : string) (before after : list string)
  (bad : string) :
  Forall (good_line json_loads) before ->
  strip bad <> EmptyString ->
  json_loads (strip bad) = Raise JSONDecodeError ->
  pi.load_jsonl json_loads path (before ++ bad :: after)
  = map Ok (decoded_lines json_loads before)
    ++ [Raise (invalid_json (Z.of_nat (length before) + 1) path)]
  /\ parse_trajectories.load_jsonl json_loads path (before ++ bad :: after)
     = Raise (invalid_json (Z.of_nat (length before) + 1) path).
Proof.
  intros Hgood Hne Hbad.
  unfold pi.load_jsonl, parse_trajectories.load_jsonl.
  destruct (load_from_good path before (bad :: after) 1 Hgood) as [-> ->].
  cbn [pi.load_jsonl_from parse_trajectories.load_jsonl_from].
  rewrite (str_empty_false _ Hne), Hbad.
  replace (1 + Z.of_nat (length before))%Z
    with (Z.of_nat (length before) + 1)%Z by lia.
  done.
Qed.

(** X10. When every line is blank or decodes, both loaders give the
    records of the lines that are not blank, in the order of the file. *)
Theorem load_jsonl_records (path : string) (lines : list string) :
  Forall (good_line json_loads) lines ->
  pi.load_jsonl json_loads path lines
  = map Ok (decoded_lines json_loads lines)
  /\ parse_trajectories.load_jsonl json_loads path lines
     = Ok (decoded_lines json_loads lines).
Proof.
  intros Hgood.
  unfold pi.load_jsonl, parse_trajectories.load_jsonl.
  destruct (load_from_good path lines [] 1 Hgood) as [H1 H2].
  rewrite app_nil_r in H1, H2. rewrite H1, H2.
  cbn [pi.load_jsonl_from parse_trajectories.load_jsonl_from bind].
  by rewrite !app_nil_r.
Qed.

End loaders.

Lemma load_jsonl_invalid_line_witness :
  pi.load_jsonl json.loads "data.jsonl"
    ([line_a; "  "; line_b] ++ "{oops" :: [line_m])
  = map Ok [PDict record_a; PDict record_b]
    ++ [Raise (invalid_json 4 "data.jsonl")]
  /\ parse_trajectories.load_jsonl json.loads "data.jsonl"
       ([line_a; "  "; line_b] ++ "{oops" :: [line_m])
     = Raise (invalid_json 4 "data.jsonl").
Proof.
  apply (load_jsonl_invalid_line json.loads "data.jsonl"
           [line_a; "  "; line_b] [line_m] "{oops").
  - repeat (apply Forall_cons_2;
              [first [left; reflexivity
                     |right; vm_compute; eexists; reflexivity]|]).
    apply Forall_nil_2.
  - vm_compute. discriminate.
  - reflexivity.
Defined.

Lemma load_jsonl_records_witness :
  pi.load_jsonl json.loads "data.jsonl" [line_a; EmptyString; line_m]
  = map Ok [PDict record_a; PDict record_m]
  /\ parse_trajectories.load_jsonl json.loads "data.jsonl"
       [line_a; EmptyString; line_m]
     = Ok [PDict record_a; PDict record_m].
Proof.
  apply (load_jsonl_records json.loads "data.jsonl"
           [line_a; EmptyString; line_m]).
  repeat (apply Forall_cons_2;
            [first [left; reflexivity
                   |right; vm_compute; eexists; reflexivity]|]).
  apply Forall_nil_2.
Defined.

(** ** More about the records the converter writes *)

Section converter_records.

Variable json_loads : string -> result pyval.

Lemma find_payload_response (steps : list pyval) (payload : pydict)
  (response : pyval) :
  find_payload json_loads steps = Ok (Some (payload, response)) ->
  exists t, t <> EmptyString /\ response = PStr t.
Proof.
  induction steps as [|step steps IH]; [done|].
  cbn [find_payload]. destruct (get step "response") as [r|e]; [|done].
  cbn [bind]. destruct (por r (PStr EmptyString)) as [| | | |t| |]; try done.
  destruct (extract_json_payload json_loads t) as [[[p|] src]|e] eqn:Hextract;
    cbn [bind]; [|exact IH|done].
  intros [= <- <-]. exists t. split; [|done].
  intros ->. done.
Qed.

Lemma find_payload_none_head (step : pyval) (steps : list pyval) :
  find_payload json_loads (step :: steps) = Ok None ->
  exists r, get step "response" = Ok r
            /\ (truthy r = false \/ exists t, t <> EmptyString /\ r = PStr t).
Proof.
  cbn [find_payload]. destruct (get step "response") as [r|e]; [|done].
  cbn [bind]. intros H. exists r. split; [done|].
  unfold por in H. destruct (truthy r) eqn:Hr; [|by left].
  right. destruct r as [| | | |t| |]; try done.
  exists t. split; [|done]. by intros ->.
Qed.

Lemma select_payload_raw (trajectory : pyval) (payload : pydict) (raw : pyval)
  (missing : bool) :
  select_payload json_loads trajectory = Ok (payload, raw, missing) ->
  truthy raw = false \/ exists t, t <> EmptyString /\ raw = PStr t.
Proof.
  unfold select_payload.
  destruct (reversed trajectory) as [steps|e]; [|done]. cbn [bind].
  destruct (find_payload json_loads steps) as [[[p resp]|]|e] eqn:Hfind;
    [| |done]; cbn [bind].
  - intros [= <- <- <-]. right. by eapply find_payload_response.
  - destruct steps as [|step steps].
    + intros [= <- <- <-]. by left.
    + destruct (find_payload_none_head _ _ Hfind) as (r & -> & Hr).
      cbn [bind]. by intros [= <- <- <-].
Qed.

Lemma convert_record (stem : string) (bench_record : pydict)
  (traj_data : pyval) (r : output_record) (missing : bool) :
  convert json_loads stem bench_record traj_data = Ok (r, missing) ->
  parse_trajectories.instance_id r = stem
  /\ meta_data r = build_meta bench_record
  /\ raw_output_ok r.
Proof.
  unfold convert.
  destruct traj_data as [| | | | | |d]; try done. cbn [bind].
  destruct (select_payload json_loads _) as [[[payload raw] miss]|] eqn:Hsel;
    [|done].
  cbn [bind].
  destruct (found_lists payload) as [[files modules] entities].
  intros [= <- _]. repeat split. unfold raw_output_ok. cbn.
  destruct (select_payload_raw _ _ _ _ Hsel) as [->|(t & Hne & ->)];
    [by left|].
  right. exists t. split; [done|]. by destruct t.
Qed.

Lemma convert_files_new (bench_data : gmap string pydict)
  (files : list traj_file) (out : list output_record) (missing_payload : Z)
  (err : list string) :
  exists new,
    (convert_files json_loads bench_data files out missing_payload err).1.1.1
    = out ++ new
    /\ sublist (map parse_trajectories.instance_id new) (map traj_stem files)
    /\ Forall (fun r => raw_output_ok r
                        /\ exists d,
                             bench_data !! parse_trajectories.instance_id r
                             = Some d
                             /\ meta_data r = build_meta d) new.
Proof.
  revert out missing_payload err.
  induction files as [|f files IH]; intros out missing_payload err;
    cbn [convert_files].
  { exists []. by rewrite app_nil_r. }
  destruct (bench_data !! traj_stem f) as [bench_record|] eqn:Hbench.
  2:{ destruct (IH out missing_payload err) as (new & Hout & Hsub & Hall).
      exists new. repeat split; [done| |done]. by apply sublist_cons. }
  assert (exists new,
            out = out ++ new
            /\ sublist (map parse_trajectories.instance_id new)
                 (map traj_stem (f :: files))
            /\ Forall (fun r => raw_output_ok r
                                /\ exists d,
                                     bench_data
                                     !! parse_trajectories.instance_id r
                                     = Some d
                                     /\ meta_data r = build_meta d) new)
    as Hstop.
  { exists []. rewrite app_nil_r. repeat split; [|constructor].
    apply sublist_nil_l. }
  destruct (json_loads (traj_text f)) as [traj_data|[]];
    cbn [catch_decode_error]; try exact Hstop.
  2:{ destruct (IH out missing_payload
                  (err ++ ["Skipping invalid JSON: " +:+ traj_path f]))
        as (new & Hout & Hsub & Hall).
      exists new. repeat split; [done| |done]. by apply sublist_cons. }
  destruct (convert json_loads (traj_stem f) bench_record traj_data)
    as [[r missing]|e] eqn:Hconv.
  - destruct (convert_record _ _ _ _ _ Hconv) as (Hid & Hmeta & Hraw).
    destruct (IH (out ++ [r])
                (if missing then (missing_payload + 1)%Z else missing_payload)
                err) as (new & Hout & Hsub & Hall).
    exists (r :: new). rewrite Hout, <- app_assoc. split; [done|]. split.
    + cbn [map]. rewrite Hid. by apply sublist_skip.
    + constructor; [|done]. split; [done|].
      exists bench_record. by rewrite Hid.
  - exists []. cbn. rewrite app_nil_r. repeat split; [|constructor].
    apply sublist_nil_l.
Qed.

Lemma bench_index_origin (data : list pyval) (acc m : gmap string pydict)
  (k : string) (d : pydict) :
  bench_index data acc = Ok m ->
  m !! k = Some d ->
  acc !! k = Some d
  \/ (PDict d ∈ data /\ dict_get d "instance_id" = PStr k).
Proof.
  revert acc. induction data as [|item data IH]; intros acc.
  - intros [= <-]. by left.
  - cbn [bench_index]. destruct item as [| | | | | |d0]; try done.
    destruct (dict_get d0 "instance_id") as [| | | |key| |] eqn:Hkey; try done;
      intros Hindex Hm;
      destruct (IH _ Hindex Hm) as [Hacc|[Hin Hid]];
      try (by left); try (right; split; [by right|done]).
    destruct (decide (key = k)) as [->|Hne].
    + rewrite lookup_insert_eq in Hacc. injection Hacc as <-.
      right. split; [left|done].
    + rewrite lookup_insert_ne in Hacc by done. by left.
Qed.

End converter_records.

(** X11. The Trajectory Converter writes at most one record per trajectory
    file, in the order of the files and under the stem of its file, and
    only for a stem that is the [instance_id] of a record of the dataset,
    whose metadata it carries. *)
Theorem written_records_match_dataset (json_loads : string -> result pyval)
  (traj_dir dataset output : string) (traj_dir_exists dataset_exists : bool)
  (dataset_lines : list string) (traj_files : list traj_file)
  (records : list output_record) :
  parse_trajectories.written
    (parse_trajectories.main json_loads traj_dir dataset output
       traj_dir_exists dataset_exists dataset_lines traj_files)
  = Some records ->
  sublist (map parse_trajectories.instance_id records)
          (map traj_stem traj_files)
  /\ exists data,
       parse_trajectories.load_jsonl json_loads dataset dataset_lines = Ok data
       /\ Forall (fun r => exists d, PDict d ∈ data /\ made_for r d) records.
Proof.
  unfold parse_trajectories.main.
  destruct (negb traj_dir_exists); [done|].
  destruct (negb dataset_exists); [done|].
  destruct (parse_trajectories.load_jsonl json_loads dataset dataset_lines)
    as [data|e]; [|done].
  cbn [bind].
  destruct (bench_index data ∅) as [bench_data|e] eqn:Hindex; [|done].
  destruct traj_files as [|f files]; [done|].
  destruct (convert_files_new json_loads bench_data (f :: files) [] 0 [])
    as (new & Hout & Hsub & Hall).
  destruct (convert_files json_loads bench_data (f :: files) [] 0 [])
    as [[[out missing_payload] err] [e|]]; cbn in Hout; subst out;
    intros [= <-]; (split; [done|]); exists data; (split; [done|]);
    (eapply Forall_impl; [exact Hall|]);
    intros r (_ & d & Hd & Hmeta); exists d;
    (destruct (bench_index_origin _ _ _ _ _ Hindex Hd) as [Hempty|[Hin Hid]];
     [by rewrite lookup_empty in Hempty|by repeat split]).
Qed.

(** X12. The raw output of every record the Trajectory Converter writes is
    empty or holds exactly one string, which is not empty. *)
Theorem written_records_raw_output (json_loads : string -> result pyval)
  (traj_dir dataset output : string) (traj_dir_exists dataset_exists : bool)
  (dataset_lines : list string) (traj_files : list traj_file)
  (records : list output_record) :
  parse_trajectories.written
    (parse_trajectories.main json_loads traj_dir dataset output
       traj_dir_exists dataset_exists dataset_lines traj_files)
  = Some records ->
  Forall raw_output_ok records.
Proof.
  unfold parse_trajectories.main.
  destruct (negb traj_dir_exists); [done|].
  destruct (negb dataset_exists); [done|].
  destruct (bind _ _) as [bench_data|e]; [|done].
  destruct traj_files as [|f files]; [done|].
  destruct (convert_files_new json_loads bench_data (f :: files) [] 0 [])
    as (new & Hout & _ & Hall).
  destruct (convert_files json_loads bench_data (f :: files) [] 0 [])
    as [[[out missing_payload] err] [e|]]; cbn in Hout; subst out;
    intros [= <-]; (eapply Forall_impl; [exact Hall|]); by intros r [? _].
Qed.

Lemma written_records_match_dataset_witness :
  sublist (map parse_trajectories.instance_id [ex_record_x1])
          (map traj_stem [ex_traj_x1; ex_traj_y2])
  /\ exists data,
       parse_trajectories.load_jsonl json.loads "data.jsonl" ex_dataset
       = Ok data
       /\ Forall (fun r => exists d, PDict d ∈ data /\ made_for r d)
            [ex_record_x1].
Proof.
  apply (written_records_match_dataset json.loads "trajs" "data.jsonl"
           "out.jsonl" true true ex_dataset [ex_traj_x1; ex_traj_y2]).
  vm_compute. reflexivity.
Defined.

Lemma written_records_raw_output_witness :
  Forall raw_output_ok [ex_record_x1].
Proof.
  apply (written_records_raw_output json.loads "trajs" "data.jsonl"
           "out.jsonl" true true ex_dataset [ex_traj_x1; ex_traj_y2]).
  vm_compute. reflexivity.
Defined.

Ltac settle_codes :=
  repeat match goal with
         | |- _ /\ _ => split
         | |- _ <-> _ => split
         end;
  intros; destruct_and?;
  repeat match goal with
         | H : _ \/ _ |- _ => destruct H
         | H : exists _, _ |- _ => destruct H
         end;
  destruct_and?; simplify_eq; try done; try congruence;
  try (repeat esplit; eauto; done).

(** X13. The exit codes of the Trajectory Converter: 2 exactly when one of
    its two input paths is missing, 3 exactly when both are there, the
    dataset loads and no trajectory file is found; with either code the
    output file is not opened. *)
Theorem converter_exit_codes (json_loads : string -> result pyval)
  (traj_dir dataset output : string) (traj_dir_exists dataset_exists : bool)
  (dataset_lines : list string) (traj_files : list traj_file) :
  let run := parse_trajectories.main json_loads traj_dir dataset output
               traj_dir_exists dataset_exists dataset_lines traj_files in
  (parse_trajectories.exit run = Ok 2%Z
   <-> traj_dir_exists && dataset_exists = false)
  /\ (parse_trajectories.exit run = Ok 3%Z
      <-> traj_dir_exists && dataset_exists = true
          /\ (exists data bench_data,
                parse_trajectories.load_jsonl json_loads dataset dataset_lines
                = Ok data
                /\ bench_index data ∅ = Ok bench_data)
          /\ traj_files = [])
  /\ (parse_trajectories.exit run = Ok 2%Z
      \/ parse_trajectories.exit run = Ok 3%Z ->
      parse_trajectories.written run = None).
Proof.
  unfold parse_trajectories.main.
  destruct traj_dir_exists, dataset_exists; cbn [negb andb];
    try by settle_codes.
  destruct (parse_trajectories.load_jsonl json_loads dataset dataset_lines)
    as [data|e]; cbn [bind]; [|by settle_codes].
  destruct (bench_index data ∅) as [bench_data|e] eqn:Hindex;
    [|by settle_codes].
  destruct traj_files as [|f files]; [by settle_codes|].
  destruct (convert_files json_loads bench_data (f :: files) [] 0 [])
    as [[[out missing_payload] err] [e|]]; by settle_codes.
Qed.

(** ** More about the loop of the Instance Builder *)

Section builder_trace.

Variable path_join : string -> string -> string.
Variable path_exists : string -> bool.

Local Abbreviation body := (pi.body path_join path_exists).
Local Abbreviation loop := (pi.loop path_join path_exists).
Local Abbreviation emit := (emitted path_join path_exists).
Local Abbreviation missing := (missing_slug path_join path_exists).

Local Abbreviation traced := (traced path_join path_exists).

Lemma traced_refl (a : pi.args) (regex : option (string -> bool))
  (items : list (result pyval)) (st : pi.state) :
  traced a regex items st st.
Proof.
  exists []. split; [apply prefix_nil|]. cbn [omap list_omap length].
  rewrite app_nil_r. split; [done|].
  split; [by destruct (pi.skip_missing a); rewrite app_nil_r|].
  split; [lia|]. destruct (room _ _); [lia|done].
Qed.

Lemma loop_trace (a : pi.args) (regex : option (string -> bool))
  (items : list (result pyval)) (st st' : pi.state) (oe : option exn) :
  loop a regex items st = (st', oe) -> traced a regex items st st'.
Proof.
  revert st. induction items as [|[record|e] items IH]; intros st.
  - intros [= <- <-]. apply traced_refl.
  - cbn [pi.loop].
    pose proof (body_spec path_join path_exists a regex st record) as Hbody.
    pose proof (emitted_not_missing path_join path_exists a regex (Ok record))
      as Hexcl.
    unfold step_of in Hbody.
    destruct (body a regex st record) as [st1|st1|e1].
    + intros Hloop.
      destruct (IH _ Hloop) as (seen & Hpre & Hout & Hmiss & Hcount & Hroom).
      exists (Ok record :: seen). split; [by apply prefix_cons|].
      rewrite !omap_cons.
      destruct (emit a regex (Ok record)) as [inst|].
      * rewrite (Hexcl inst eq_refl).
        destruct (pi.limit_reached a (pi.count st + 1)) eqn:Hlim; [done|].
        injection Hbody as ->.
        cbn [after_emit pi.out pi.missing_repos pi.count] in *.
        rewrite Hout, Hmiss, Hcount, <- app_assoc. cbn [length].
        split; [done|]. split; [done|]. split; [lia|].
        revert Hroom Hlim. unfold room, pi.limit_reached.
        destruct (pi.limit a) as [l|]; [|done].
        destruct (l =? 0)%Z; [done|]. simpl.
        intros Hroom Hle%Z.leb_gt. lia.
      * destruct (missing a regex (Ok record)) as [slug|];
          injection Hbody as ->; [|done].
        unfold after_missing in *.
        destruct (pi.skip_missing a); [done|].
        cbn [pi.out pi.missing_repos pi.count] in *.
        by rewrite Hmiss, <- app_assoc.
    + intros [= <- <-]. exists [Ok record].
      split; [apply prefix_cons, prefix_nil|].
      rewrite !omap_cons. cbn [omap list_omap].
      destruct (emit a regex (Ok record)) as [inst|];
        [|by destruct (missing a regex (Ok record))].
      rewrite (Hexcl inst eq_refl).
      destruct (pi.limit_reached a (pi.count st + 1)) eqn:Hlim; [|done].
      injection Hbody as ->.
      cbn [after_emit pi.out pi.missing_repos pi.count length].
      split; [done|].
      split; [by destruct (pi.skip_missing a); rewrite app_nil_r|].
      split; [lia|].
      unfold room. destruct (pi.limit a) as [l|]; [|done].
      destruct (l =? 0)%Z; [done|]. lia.
    + intros [= <- <-]. apply traced_refl.
  - intros [= <- <-]. apply traced_refl.
Qed.

End builder_trace.

(** ** More about the runs of the Instance Builder *)

Section builder_properties.

Variable json_loads : string -> result pyval.
Variable path_join : string -> string -> string.
Variable path_exists : string -> bool.
Variable re_compile : string -> option (string -> bool).

Local Abbreviation main := (pi.main json_loads path_join path_exists re_compile).
Local Abbreviation main_items := (pi.main_items path_join path_exists re_compile).
Local Abbreviation loop := (pi.loop path_join path_exists).
Local Abbreviation body := (pi.body path_join path_exists).
Local Abbreviation emit := (emitted path_join path_exists).
Local Abbreviation missing := (missing_slug path_join path_exists).

Local Arguments replace : simpl never.

(** A run that has opened its output file has found its two paths,
    compiled its filter and gone through its loop. *)
Lemma main_written (a : pi.args) (lines : list string)
  (insts : list pi.instance) :
  pi.written (main a lines) = Some insts ->
  path_exists (pi.dataset a) = true
  /\ path_exists (pi.repo_root a) = true
  /\ exists regex st oe,
       pi.compile_filter re_compile a = Ok regex
       /\ loop a regex (pi.load_jsonl json_loads (pi.dataset a) lines) pi.init
          = (st, oe)
       /\ insts = pi.out st.
Proof.
  unfold pi.main.
  destruct (path_exists (pi.dataset a)); [|done].
  destruct (path_exists (pi.repo_root a)); [|done].
  cbn [negb]. unfold pi.main_items.
  destruct (pi.compile_filter re_compile a) as [regex|e]; [|done].
  destruct (loop a regex _ pi.init) as [st [e|]] eqn:Hloop.
  - intros [= <-]. eauto 10.
  - destruct (pi.missing_repos st); [|destruct (pi.skip_missing a)];
      intros [= <-]; eauto 10.
Qed.

Lemma emitted_well_built (a : pi.args) (regex : option (string -> bool))
  (items : list (result pyval)) (item : result pyval) (inst : pi.instance) :
  item ∈ items -> emit a regex item = Some inst ->
  well_built path_join path_exists a items inst.
Proof.
  intros Hitem. unfold emitted, survivor.
  destruct item as [[| | | | | |d]|e]; try done.
  destruct (truthy (dict_get d "instance_id")) eqn:Hid; [|done].
  destruct (passes regex _); [|done]. cbn [andb].
  destruct (dict_get d "repo") as [| | | |slug| |] eqn:Hrepo; try done.
  destruct (str_empty slug) eqn:Hslug; [done|].
  destruct (path_exists (mirror path_join a slug)) eqn:Hexists; [|done].
  intros [= <-]. unfold well_built, task_instance, mirror in *.
  cbn [pi.inst_image_name pi.instance_id pi.extra_repo_slug pi.repo_name
       pi.extra_repo_path pi.base_commit pi.extra_base_commit
       pi.problem_statement].
  repeat split; try done.
  - by intros ->.
  - unfold por. by destruct (truthy (dict_get d "base_commit")) eqn:Hc.
  - by exists d.
Qed.

(** X14. Every line of the output file, whatever the run comes to, is a
    well-built Task Instance: it is made from a record of the dataset with
    an identifier and a slug, its repository is the mirror of the slug and
    exists, and it names a commit. *)
Theorem written_instances_are_well_built (a : pi.args) (lines : list string)
  (insts : list pi.instance) :
  pi.written (main a lines) = Some insts ->
  Forall (well_built path_join path_exists a
            (pi.load_jsonl json_loads (pi.dataset a) lines)) insts.
Proof.
  intros (_ & _ & regex & st & oe & _ & Hloop & ->)%main_written.
  apply loop_trace in Hloop as (seen & Hpre & Hout & _).
  rewrite Hout. cbn [pi.init pi.out app].
  apply Forall_forall. intros inst (item & Hitem & Hemit)%list_elem_of_omap.
  eapply emitted_well_built; [|done].
  destruct Hpre as [k ->]. apply elem_of_app. by left.
Qed.

(** X15. A limit that is not zero bounds the output, whatever the run
    comes to: at most that many lines, and one line when the limit is
    negative. *)
Theorem limit_bounds_the_output (a : pi.args) (lines : list string) (l : Z)
  (insts : list pi.instance) :
  pi.limit a = Some l -> l <> 0%Z ->
  pi.written (main a lines) = Some insts ->
  (Z.of_nat (length insts) <= Z.max 1 l)%Z.
Proof.
  intros Hl Hnz (_ & _ & regex & st & oe & _ & Hloop & ->)%main_written.
  apply loop_trace in Hloop as (seen & _ & Hout & _ & _ & Hroom).
  rewrite Hout. cbn [pi.init pi.out pi.count app] in *.
  unfold room in Hroom. rewrite Hl in Hroom.
  destruct (l =? 0)%Z eqn:Hz; lia.
Qed.

(** X16. With [skip_missing] a run never exits with code 3, and writes
    nothing on the standard error once its two paths are found: the
    warning about missing repositories is never printed. *)
Theorem skip_missing_is_silent (a : pi.args) (lines : list string) :
  pi.skip_missing a = true ->
  pi.exit (main a lines) <> Ok 3%Z
  /\ (pi.exit (main a lines) <> Ok 2%Z -> pi.stderr (main a lines) = []).
Proof.
  intros Hskip. unfold pi.main.
  destruct (negb (path_exists (pi.dataset a))); [done|].
  destruct (negb (path_exists (pi.repo_root a))); [done|].
  unfold pi.main_items.
  destruct (pi.compile_filter re_compile a) as [regex|e]; [|done].
  destruct (loop a regex _ pi.init) as [st [e|]] eqn:Hloop; [done|].
  apply loop_trace in Hloop as (seen & _ & _ & Hmiss & _).
  rewrite Hmiss, Hskip. done.
Qed.

(** X17. The message of a run that exits with code 0 gives the number of
    lines the output file holds. *)
Theorem wrote_message_counts_the_lines (a : pi.args) (lines : list string) :
  pi.exit (main a lines) = Ok 0%Z ->
  exists insts,
    pi.written (main a lines) = Some insts
    /\ pi.stdout (main a lines) = [wrote_message (length insts) (pi.output a)].
Proof.
  unfold pi.main.
  destruct (negb (path_exists (pi.dataset a))); [done|].
  destruct (negb (path_exists (pi.repo_root a))); [done|].
  unfold pi.main_items.
  destruct (pi.compile_filter re_compile a) as [regex|e]; [|done].
  destruct (loop a regex _ pi.init) as [st [e|]] eqn:Hloop; [done|].
  apply loop_trace in Hloop as (seen & _ & Hout & _ & Hcount & _).
  cbn [pi.init pi.out pi.count app] in *.
  assert (pi.count st = Z.of_nat (length (pi.out st))) as Hn
    by (rewrite Hout, Hcount; lia).
  unfold wrote_message.
  destruct (pi.missing_repos st); [|destruct (pi.skip_missing a); [|done]];
    intros _; exists (pi.out st); by rewrite Hn.
Qed.

Lemma omap_prefix {A B : Type} (f : A -> option B) (l1 l2 : list A) :
  l1 `prefix_of` l2 -> omap f l1 `prefix_of` omap f l2.
Proof. intros [k ->]. rewrite omap_app. by eexists. Qed.

Lemma missing_slug_has_no_mirror (a : pi.args)
  (regex : option (string -> bool)) (item : result pyval) (slug : string) :
  missing a regex item = Some slug ->
  path_exists (mirror path_join a slug) = false.
Proof.
  unfold missing_slug.
  destruct (survivor regex item) as [[d slug']|]; [|done].
  destruct (path_exists (mirror path_join a slug')) eqn:Hexists; [done|].
  by intros [= <-].
Qed.

(** X18. A run that exits with code 3 tells the truth: [skip_missing] is
    not set, nothing goes to the standard output, and the report counts
    and names slugs of surviving records of the dataset, in their order,
    none of which has a mirror. *)
Theorem missing_report_is_truthful (a : pi.args) (lines : list string)
  (regex : option (string -> bool)) :
  pi.compile_filter re_compile a = Ok regex ->
  pi.exit (main a lines) = Ok 3%Z ->
  pi.skip_missing a = false
  /\ pi.stdout (main a lines) = []
  /\ exists slugs,
       slugs <> []
       /\ pi.stderr (main a lines) = [missing_report slugs]
       /\ slugs `prefix_of`
            omap (missing a regex)
                 (pi.load_jsonl json_loads (pi.dataset a) lines)
       /\ Forall (fun slug => path_exists (mirror path_join a slug) = false)
                 slugs.
Proof.
  intros Hregex. unfold pi.main.
  destruct (negb (path_exists (pi.dataset a))); [done|].
  destruct (negb (path_exists (pi.repo_root a))); [done|].
  unfold pi.main_items. rewrite Hregex.
  destruct (loop a regex _ pi.init) as [st [e|]] eqn:Hloop; [done|].
  apply loop_trace in Hloop as (seen & Hpre & _ & Hmiss & _).
  cbn [pi.init pi.missing_repos app] in Hmiss.
  destruct (pi.missing_repos st) as [|m ms] eqn:Hms; [done|].
  destruct (pi.skip_missing a); [done|]. intros _.
  split; [done|]. split; [done|].
  exists (m :: ms). split; [done|]. split; [done|].
  rewrite Hmiss. split; [by apply omap_prefix|].
  apply Forall_forall. intros slug (item & _ & Hslug)%list_elem_of_omap.
  by eapply missing_slug_has_no_mirror.
Qed.

(** X19. The exit code 2 is the code of a missing input path, the dataset
    looked at first, and of nothing else; the output file is opened, and
    so emptied, in every run but those and the runs whose filter does not
    compile. *)
Theorem builder_exit_code_2 (a : pi.args) (lines : list string) :
  (pi.exit (main a lines) = Ok 2%Z
   <-> path_exists (pi.dataset a) && path_exists (pi.repo_root a) = false)
  /\ (pi.exit (main a lines) = Ok 2%Z ->
      pi.stdout (main a lines) = []
      /\ pi.stderr (main a lines)
         = [if path_exists (pi.dataset a)
            then "Repo root not found: " +:+ pi.repo_root a
            else "Dataset not found: " +:+ pi.dataset a])
  /\ (pi.written (main a lines) = None
      <-> path_exists (pi.dataset a) && path_exists (pi.repo_root a) = false
          \/ pi.compile_filter re_compile a = Raise PatternError).
Proof.
  unfold pi.main.
  destruct (path_exists (pi.dataset a)); cbn [negb andb];
    [|by intuition auto].
  destruct (path_exists (pi.repo_root a)); cbn [negb andb];
    [|by intuition auto].
  unfold pi.main_items, pi.compile_filter.
  destruct (pi.filter a) as [pattern|].
  - destruct (str_empty pattern).
    + destruct (loop a None _ pi.init) as [st [e|]];
        [|destruct (pi.missing_repos st); [|destruct (pi.skip_missing a)]];
        cbn; intuition congruence.
    + destruct (re_compile pattern) as [search|]; [|cbn; by intuition auto].
      destruct (loop a (Some search) _ pi.init) as [st [e|]];
        [|destruct (pi.missing_repos st); [|destruct (pi.skip_missing a)]];
        cbn; intuition congruence.
  - destruct (loop a None _ pi.init) as [st [e|]];
      [|destruct (pi.missing_repos st); [|destruct (pi.skip_missing a)]];
      cbn; intuition congruence.
Qed.

Lemma body_args_ext (a1 a2 : pi.args) (regex : option (string -> bool))
  (st : pi.state) (record : pyval) :
  pi.repo_root a1 = pi.repo_root a2 ->
  pi.image_name a1 = pi.image_name a2 ->
  pi.skip_missing a1 = pi.skip_missing a2 ->
  (forall c, pi.limit_reached a1 c = pi.limit_reached a2 c) ->
  body a1 regex st record = body a2 regex st record.
Proof.
  intros Hroot Himage Hskip Hlim. unfold pi.body, pi.build_repo_path.
  rewrite Hroot, Himage, Hskip.
  destruct (get record "instance_id") as [id|]; [|done].
  destruct (negb (truthy id)); [done|].
  destruct (pi.filtered_out regex id) as [[]|]; try done.
  destruct (get record "repo") as [slug|]; [|done].
  destruct (negb (truthy slug)); [done|].
  destruct slug; try done.
  cbv zeta. destruct (negb (path_exists _)); [done|].
  destruct (get record "base_commit"), (get record "problem_statement");
    try done.
  cbn [pi.count]. by rewrite Hlim.
Qed.

Lemma loop_args_ext (a1 a2 : pi.args) (regex : option (string -> bool))
  (items : list (result pyval)) (st : pi.state) :
  pi.repo_root a1 = pi.repo_root a2 ->
  pi.image_name a1 = pi.image_name a2 ->
  pi.skip_missing a1 = pi.skip_missing a2 ->
  (forall c, pi.limit_reached a1 c = pi.limit_reached a2 c) ->
  loop a1 regex items st = loop a2 regex items st.
Proof.
  intros Hroot Himage Hskip Hlim. revert st.
  induction items as [|[r|e] items IH]; intros st; cbn [pi.loop];
    [done| |done].
  rewrite (body_args_ext a1 a2) by done.
  destruct (body a2 regex st r); [apply IH|done|done].
Qed.

Lemma main_items_args_ext (a1 a2 : pi.args) (items : list (result pyval)) :
  pi.compile_filter re_compile a1 = pi.compile_filter re_compile a2 ->
  pi.output a1 = pi.output a2 ->
  pi.repo_root a1 = pi.repo_root a2 ->
  pi.image_name a1 = pi.image_name a2 ->
  pi.skip_missing a1 = pi.skip_missing a2 ->
  (forall c, pi.limit_reached a1 c = pi.limit_reached a2 c) ->
  main_items a1 items = main_items a2 items.
Proof.
  intros Hfilter Hout Hroot Himage Hskip Hlim. unfold pi.main_items.
  rewrite Hfilter, Hout, Hskip.
  destruct (pi.compile_filter re_compile a2) as [regex|e]; [|done].
  by rewrite (loop_args_ext a1 a2).
Qed.

(** X20. A limit of zero is no limit and an empty filter is no filter: the
    run is the run without the option. *)
Theorem zero_limit_and_empty_filter_are_absent (a : pi.args)
  (lines : list string) :
  main (with_limit a (Some 0%Z)) lines = main (with_limit a None) lines
  /\ main (with_filter a (Some EmptyString)) lines
     = main (with_filter a None) lines.
Proof.
  split; unfold pi.main;
    cbn [with_limit with_filter pi.dataset pi.repo_root];
    (destruct (negb (path_exists (pi.dataset a))); [done|]);
    (destruct (negb (path_exists (pi.repo_root a))); [done|]);
    by apply main_items_args_ext.
Qed.


Lemma load_jsonl_good (path : string) (lines rest : list string) :
  Forall (good_line json_loads) lines ->
  pi.load_jsonl json_loads path (lines ++ rest)
  = map Ok (decoded_lines json_loads lines)
    ++ pi.load_jsonl_from json_loads path (1 + Z.of_nat (length lines)) rest.
Proof.
  intros Hgood. unfold pi.load_jsonl.
  by destruct (load_from_good json_loads path lines rest 1 Hgood) as [-> _].
Qed.

(** Once the room the limit leaves is used up, the loop reads no more. *)
Lemma loop_stops (a : pi.args) (regex : option (string -> bool))
  (records : list pyval) (rest : list (result pyval)) (st : pi.state) (n : nat) :
  room (pi.limit a) (pi.count st) = Some n ->
  Forall (fun r => well_formed r = true) records ->
  (n <= length (omap (emit a regex) (map Ok records)))%nat ->
  loop a regex (map Ok records ++ rest) st = loop a regex (map Ok records) st.
Proof.
  intros Hroom Hwf. revert st n Hroom.
  induction Hwf as [|record records Hrecord _ IH]; intros st n Hroom Hlen.
  - exfalso. cbn in Hlen. unfold room in Hroom.
    destruct (pi.limit a); [|done]. destruct (_ =? _)%Z; [done|].
    injection Hroom as <-. lia.
  - cbn [map app pi.loop]. cbn [map] in Hlen. rewrite omap_cons in Hlen.
    pose proof (body_spec path_join path_exists a regex st record) as Hbody.
    unfold step_of in Hbody.
    destruct (body a regex st record) as [st1|st1|e]; [|done|done].
    destruct (emit a regex (Ok record)) as [inst|].
    + destruct (pi.limit_reached a (pi.count st + 1)) eqn:Hlim; [done|].
      injection Hbody as ->. apply (IH _ (Nat.pred n)).
      * cbn [after_emit pi.count]. revert Hroom Hlim.
        unfold room, pi.limit_reached.
        destruct (pi.limit a) as [l|]; [|done].
        destruct (l =? 0)%Z; [done|]. simpl.
        intros [= <-] Hle%Z.leb_gt. f_equal. lia.
      * cbn [length] in Hlen. lia.
    + destruct (missing a regex (Ok record)) as [slug|];
        injection Hbody as ->; [|by apply (IH _ n)].
      apply (IH _ n); [|done]. unfold after_missing.
      by destruct (pi.skip_missing a).
Qed.

(** X22. The dataset is read as the loop goes: once the limit is reached,
    the lines that follow are not read, whatever they hold - the run is
    the run on the lines before. *)
Theorem lines_behind_the_limit_are_not_read (a : pi.args)
  (regex : option (string -> bool)) (l : Z) (before rest : list string) :
  pi.compile_filter re_compile a = Ok regex ->
  pi.limit a = Some l -> l <> 0%Z ->
  Forall (good_line json_loads) before ->
  Forall (fun r => well_formed r = true) (decoded_lines json_loads before) ->
  (Z.max 1 l
   <= Z.of_nat (length (omap (emit a regex)
                             (map Ok (decoded_lines json_loads before)))))%Z ->
  main a (before ++ rest) = main a before.
Proof.
  intros Hregex Hl Hnz Hgood Hwf Hlen. unfold pi.main.
  destruct (negb (path_exists (pi.dataset a))); [done|].
  destruct (negb (path_exists (pi.repo_root a))); [done|].
  rewrite (load_jsonl_good _ before rest Hgood).
  assert (pi.load_jsonl json_loads (pi.dataset a) before
          = map Ok (decoded_lines json_loads before)) as ->.
  { rewrite <- (app_nil_r before) at 1.
    rewrite (load_jsonl_good _ before [] Hgood).
    cbn [pi.load_jsonl_from]. by rewrite app_nil_r. }
  unfold pi.main_items. rewrite Hregex.
  rewrite (loop_stops a regex _ _ pi.init (Z.to_nat (Z.max 1 l))); [done| |done|lia].
  unfold room. rewrite Hl. cbn [pi.init pi.count].
  destruct (l =? 0)%Z eqn:Hz; [lia|]. by rewrite Z.sub_0_r.
Qed.

(** On well-formed records that the limit does not stop, the loop goes on
    with what follows them. *)
Lemma loop_through (a : pi.args) (regex : option (string -> bool))
  (records : list pyval) (rest : list (result pyval)) (st : pi.state) :
  Forall (fun r => well_formed r = true) records ->
  limit_not_reached (pi.limit a)
    (Z.to_nat (pi.count st)
     + length (omap (emit a regex) (map Ok records))) = true ->
  (0 <= pi.count st)%Z ->
  loop a regex (map Ok records ++ rest) st
  = loop a regex rest
      {| pi.out := pi.out st ++ omap (emit a regex) (map Ok records);
         pi.missing_repos :=
           pi.missing_repos st
           ++ (if pi.skip_missing a then []
               else omap (missing a regex) (map Ok records));
         pi.count :=
           (pi.count st
            + Z.of_nat (length (omap (emit a regex) (map Ok records))))%Z |}.
Proof.
  intros Hwf. revert st.
  induction Hwf as [|record records Hrecord _ IH]; intros st Hlim Hcount.
  - simpl. rewrite !app_nil_r, Z.add_0_r.
    destruct st. simpl. destruct (pi.skip_missing a); by rewrite app_nil_r.
  - cbn [map app pi.loop]. cbn [map] in Hlim.
    rewrite !omap_cons. rewrite omap_cons in Hlim.
    pose proof (body_spec path_join path_exists a regex st record) as Hbody.
    pose proof (emitted_not_missing path_join path_exists a regex (Ok record))
      as Hexcl.
    unfold step_of in Hbody.
    destruct (body a regex st record) as [st1|st1|e];
      [| |by rewrite Hrecord in Hbody].
    + destruct (emit a regex (Ok record)) as [inst|].
      * rewrite (Hexcl inst eq_refl).
        destruct (pi.limit_reached a (pi.count st + 1)); [done|].
        injection Hbody as ->. rewrite IH.
        -- cbn [after_emit pi.out pi.missing_repos pi.count].
           f_equal. f_equal; [by rewrite <- app_assoc|cbn [length]; lia].
        -- cbn [after_emit pi.count]. revert Hlim. unfold limit_not_reached.
           destruct (pi.limit a); [|done]. cbn [length].
           intros [?|Hlt]%orb_prop; apply orb_true_iff; [by left|right].
           apply Z.ltb_lt in Hlt. apply Z.ltb_lt. lia.
        -- cbn [after_emit pi.count]. lia.
      * destruct (missing a regex (Ok record)) as [slug|];
          injection Hbody as ->; [|by rewrite IH].
        unfold after_missing.
        destruct (pi.skip_missing a) eqn:Hskip.
        -- rewrite IH by done. by rewrite ?Hskip.
        -- rewrite IH by done. cbn [pi.out pi.missing_repos pi.count].
           by rewrite ?Hskip, <- app_assoc.
    + exfalso.
      destruct (emit a regex (Ok record)) as [inst|];
        [|by destruct (missing a regex (Ok record))].
      destruct (pi.limit_reached a (pi.count st + 1)) eqn:Hreached; [|done].
      revert Hlim Hreached. unfold limit_not_reached, pi.limit_reached.
      destruct (pi.limit a) as [lim|]; [|done]. cbn [length].
      destruct (lim =? 0)%Z; simpl; [done|].
      intros Hlt%Z.ltb_lt Hle%Z.leb_le. lia.
Qed.

(** X23. A line that does not decode, met before the limit is reached,
    ends the run with the [ValueError] of its line number: the instances
    of the lines before it stay in the output file, and the repositories
    found missing until then are not reported. *)
Theorem invalid_line_ends_the_run (a : pi.args)
  (regex : option (string -> bool)) (before after : list string)
  (bad : string) :
  path_exists (pi.dataset a) = true ->
  path_exists (pi.repo_root a) = true ->
  pi.compile_filter re_compile a = Ok regex ->
  Forall (good_line json_loads) before ->
  Forall (fun r => well_formed r = true) (decoded_lines json_loads before) ->
  limit_not_reached (pi.limit a)
    (length (omap (emit a regex) (map Ok (decoded_lines json_loads before))))
  = true ->
  strip bad <> EmptyString ->
  json_loads (strip bad) = Raise JSONDecodeError ->
  main a (before ++ bad :: after)
  = {| pi.written :=
         Some (omap (emit a regex) (map Ok (decoded_lines json_loads before)));
       pi.stderr := [];
       pi.stdout := [];
       pi.exit :=
         Raise (invalid_json (Z.of_nat (length before) + 1) (pi.dataset a)) |}.
Proof.
  intros Hdataset Hroot Hregex Hgood Hwf Hlim Hne Hbad. unfold pi.main.
  rewrite Hdataset, Hroot. cbn [negb].
  rewrite (load_jsonl_good _ before _ Hgood).
  cbn [pi.load_jsonl_from]. rewrite (str_empty_false _ Hne), Hbad.
  unfold pi.main_items. rewrite Hregex.
  rewrite loop_through by done. cbn [pi.loop pi.out pi.init app].
  unfold invalid_json.
  by replace (1 + Z.of_nat (length before))%Z
    with (Z.of_nat (length before) + 1)%Z by lia.
Qed.

Lemma replace_flat (s : string) :
  contains "/" (replace "/" "_" s) = false
  /\ String.length (replace "/" "_" s) = String.length s
  /\ (contains "/" s = false -> replace "/" "_" s = s).
Proof.
  induction s as [|c s (IH1 & IH2 & IH3)]; [done|].
  change (replace "/" "_" (String c s)) with
    (String (if Ascii.eqb c "/" then "_"%char else c) (replace "/" "_" s)).
  cbn [contains String.length]. rewrite IH2.
  destruct (Ascii.eqb c "/") eqn:Hc.
  - by rewrite IH1.
  - rewrite Hc, IH1. split; [done|]. split; [done|].
    intros Hs. by rewrite (IH3 Hs).
Qed.

(** X24. The mirror of a slug is looked for directly under the root: its
    name has no slash, is as long as the slug, and is the slug itself when
    the slug has no slash. *)
Theorem build_repo_path_flat (root slug : string) :
  exists name,
    pi.build_repo_path path_join root slug = path_join root name
    /\ contains "/" name = false
    /\ String.length name = String.length slug
    /\ (contains "/" slug = false -> name = slug).
Proof.
  exists (replace "/" "_" slug). split; [done|]. apply replace_flat.
Qed.

End builder_properties.

Lemma written_instances_are_well_built_witness :
  Forall (well_built ex_join ex_exists (ex_args None None false)
            (pi.load_jsonl json.loads "data.jsonl" [line_m; line_a; line_b]))
    [task_instance ex_join (ex_args None None false) record_a "org/a";
     task_instance ex_join (ex_args None None false) record_b "org/b"].
Proof.
  apply (written_instances_are_well_built json.loads ex_join ex_exists
           ex_compile (ex_args None None false) [line_m; line_a; line_b]).
  reflexivity.
Defined.

Lemma limit_bounds_the_output_witness :
  (Z.of_nat (length [task_instance ex_join (ex_args None (Some 1%Z) false)
                       record_a "org/a"])
   <= Z.max 1 1)%Z.
Proof.
  apply (limit_bounds_the_output json.loads ex_join ex_exists ex_compile
           (ex_args None (Some 1%Z) false) [line_a; line_b] 1%Z).
  - reflexivity.
  - lia.
  - reflexivity.
Defined.

Lemma skip_missing_is_silent_witness :
  pi.exit (pi.main json.loads ex_join ex_exists ex_compile
             (ex_args None None true) [line_m; line_a; line_m2])
  <> Ok 3%Z
  /\ (pi.exit (pi.main json.loads ex_join ex_exists ex_compile
                 (ex_args None None true) [line_m; line_a; line_m2])
      <> Ok 2%Z ->
      pi.stderr (pi.main json.loads ex_join ex_exists ex_compile
                   (ex_args None None true) [line_m; line_a; line_m2])
      = []).
Proof.
  apply (skip_missing_is_silent json.loads ex_join ex_exists ex_compile
           (ex_args None None true) [line_m; line_a; line_m2]).
  reflexivity.
Defined.

Lemma wrote_message_counts_the_lines_witness :
  exists insts,
    pi.written (pi.main json.loads ex_join ex_exists ex_compile
                  (ex_args None None true) [line_m; line_a; line_b])
    = Some insts
    /\ pi.stdout (pi.main json.loads ex_join ex_exists ex_compile
                    (ex_args None None true) [line_m; line_a; line_b])
       = [wrote_message (length insts) "out/instances.jsonl"].
Proof.
  apply (wrote_message_counts_the_lines json.loads ex_join ex_exists
           ex_compile (ex_args None None true) [line_m; line_a; line_b]).
  reflexivity.
Defined.

Lemma missing_report_is_truthful_witness :
  pi.skip_missing (ex_args None None false) = false
  /\ pi.stdout (pi.main json.loads ex_join ex_exists ex_compile
                  (ex_args None None false) [line_m; line_a; line_m2])
     = []
  /\ exists slugs,
       slugs <> []
       /\ pi.stderr (pi.main json.loads ex_join ex_exists ex_compile
                       (ex_args None None false) [line_m; line_a; line_m2])
          = [missing_report slugs]
       /\ slugs `prefix_of`
            omap (missing_slug ex_join ex_exists (ex_args None None false) None)
                 (pi.load_jsonl json.loads "data.jsonl"
                    [line_m; line_a; line_m2])
       /\ Forall (fun slug =>
                    ex_exists (mirror ex_join (ex_args None None false) slug)
                    = false) slugs.
Proof.
  apply (missing_report_is_truthful json.loads ex_join ex_exists ex_compile
           (ex_args None None false) [line_m; line_a; line_m2] None).
  - reflexivity.
  - reflexivity.
Defined.


Lemma lines_behind_the_limit_are_not_read_witness :
  pi.main json.loads ex_join ex_exists ex_compile
    (ex_args None (Some 1%Z) false) ([line_a] ++ ["not json"; line_m])
  = pi.main json.loads ex_join ex_exists ex_compile
      (ex_args None (Some 1%Z) false) [line_a].
Proof.
  apply (lines_behind_the_limit_are_not_read json.loads ex_join ex_exists
           ex_compile (ex_args None (Some 1%Z) false) None 1%Z).
  - reflexivity.
  - reflexivity.
  - lia.
  - apply Forall_cons_2; [|apply Forall_nil_2].
    right. vm_compute. eexists. reflexivity.
  - vm_compute. apply Forall_cons_2; [reflexivity|apply Forall_nil_2].
  - apply Z.leb_le. reflexivity.
Defined.

Lemma invalid_line_ends_the_run_witness :
  pi.main json.loads ex_join ex_exists ex_compile (ex_args None None false)
    ([line_m; line_a] ++ "not json" :: [line_b])
  = {| pi.written :=
         Some [task_instance ex_join (ex_args None None false) record_a "org/a"];
       pi.stderr := [];
       pi.stdout := [];
       pi.exit := Raise (ValueError "Invalid JSON on line 3 of data.jsonl") |}.
Proof.
  apply (invalid_line_ends_the_run json.loads ex_join ex_exists ex_compile
           (ex_args None None false) None [line_m; line_a] [line_b] "not json").
  - reflexivity.
  - reflexivity.
  - reflexivity.
  - repeat (apply Forall_cons_2; [right; vm_compute; eexists; reflexivity|]).
    apply Forall_nil_2.
  - vm_compute. repeat (apply Forall_cons_2; [reflexivity|]). apply Forall_nil_2.
  - reflexivity.
  - vm_compute. discriminate.
  - reflexivity.
Defined.

(** ** More about the runs of the Trajectory Converter *)

Section converter_runs.

Variable json_loads : string -> result pyval.

Lemma bench_index_keep (post : list pyval) (acc m : gmap string pydict)
  (k : string) :
  bench_index post acc = Ok m -> Forall (other_id k) post ->
  m !! k = acc !! k.
Proof.
  intros Hindex Hpost. revert acc Hindex.
  induction Hpost as [|item post Hitem _ IH]; intros acc.
  - by intros [= <-].
  - cbn [bench_index]. destruct item as [| | | | | |d]; try done.
    unfold other_id in Hitem.
    destruct (dict_get d "instance_id") as [| | | |key| |]; try done;
      intros Hindex; rewrite (IH _ Hindex); try done.
    apply lookup_insert_ne. by intros ->.
Qed.

Lemma bench_index_last (pre post : list pyval) (d : pydict)
  (acc m : gmap string pydict) (k : string) :
  bench_index (pre ++ PDict d :: post) acc = Ok m ->
  dict_get d "instance_id" = PStr k ->
  Forall (other_id k) post ->
  m !! k = Some d.
Proof.
  intros Hindex Hid Hpost. revert acc Hindex.
  induction pre as [|item pre IH]; intros acc.
  - cbn [app bench_index]. rewrite Hid. intros Hindex.
    by rewrite (bench_index_keep _ _ _ _ Hindex Hpost), lookup_insert_eq.
  - cbn [app bench_index]. destruct item as [| | | | | |d0]; try done.
    destruct (dict_get d0 "instance_id"); try done; apply IH.
Qed.

Lemma convert_missing (stem : string) (bench_record : pydict)
  (traj_data : pyval) (r : output_record) (missing : bool) :
  convert json_loads stem bench_record traj_data = Ok (r, missing) ->
  exists d payload raw,
    traj_data = PDict d
    /\ select_payload json_loads (dict_get_or d "trajectory" (PList []))
       = Ok (payload, raw, missing).
Proof.
  unfold convert.
  destruct traj_data as [| | | | | |d]; try done. cbn [bind].
  destruct (select_payload json_loads _) as [[[payload raw] miss]|] eqn:Hsel;
    [|done].
  cbn [bind].
  destruct (found_lists payload) as [[files modules] entities].
  intros [= _ <-]. by exists d, payload, raw.
Qed.

(** The loop over the trajectory files when nothing raises. *)
Lemma convert_files_done (bench_data : gmap string pydict)
  (files : list traj_file) (out out' : list output_record)
  (missing_payload missing_payload' : Z) (err err' : list string) :
  convert_files json_loads bench_data files out missing_payload err
  = (out', missing_payload', err', None) ->
  map parse_trajectories.instance_id out'
  = map parse_trajectories.instance_id out
    ++ map traj_stem (List.filter (usable json_loads bench_data) files)
  /\ err'
     = err ++ map skipped_message
                  (List.filter (unreadable json_loads bench_data) files)
  /\ missing_payload'
     = (missing_payload
        + Z.of_nat
            (length (List.filter
                       (fun f => usable json_loads bench_data f
                                 && without_payload json_loads f) files)))%Z.
Proof.
  revert out missing_payload err.
  induction files as [|f files IH]; intros out missing_payload err;
    cbn [convert_files List.filter].
  { intros [= <- <- <-]. cbn. by rewrite !app_nil_r, Z.add_0_r. }
  destruct (bench_data !! traj_stem f) as [bench_record|] eqn:Hb.
  2:{ assert (usable json_loads bench_data f = false) as ->
        by (unfold usable; by rewrite Hb).
      assert (unreadable json_loads bench_data f = false) as ->
        by (unfold unreadable; by rewrite Hb).
      cbn [andb]. apply IH. }
  destruct (json_loads (traj_text f)) as [traj_data|[]] eqn:Hj;
    cbn [catch_decode_error]; try done.
  2:{ assert (usable json_loads bench_data f = false) as ->
        by (unfold usable; by rewrite Hb, Hj).
      assert (unreadable json_loads bench_data f = true) as ->
        by (unfold unreadable; by rewrite Hb, Hj).
      intros (-> & -> & ->)%IH. cbn [map andb].
      by rewrite <- app_assoc. }
  assert (usable json_loads bench_data f = true) as ->
    by (unfold usable; by rewrite Hb, Hj).
  assert (unreadable json_loads bench_data f = false) as ->
    by (unfold unreadable; by rewrite Hb, Hj).
  destruct (convert json_loads (traj_stem f) bench_record traj_data)
    as [[r missing]|e] eqn:Hconv; [|done].
  destruct (convert_record _ _ _ _ _ _ Hconv) as (Hid & _).
  destruct (convert_missing _ _ _ _ _ Hconv)
    as (d & payload & raw & -> & Hsel).
  assert (without_payload json_loads f = missing) as ->.
  { unfold without_payload. rewrite Hj, Hsel. by destruct missing. }
  intros (-> & -> & ->)%IH. cbn [andb].
  rewrite map_app. cbn [map]. rewrite Hid, <- app_assoc.
  split; [done|]. split; [done|].
  destruct missing; cbn [length]; lia.
Qed.

End converter_runs.

(** X25. When the dataset has several records of one identifier, the
    metadata of the record written for it are those of the last one. *)
Theorem last_dataset_record_wins (json_loads : string -> result pyval)
  (traj_dir dataset output : string) (traj_dir_exists dataset_exists : bool)
  (dataset_lines : list string) (traj_files : list traj_file)
  (records : list output_record) (r : output_record)
  (pre post : list pyval) (d : pydict) :
  parse_trajectories.written
    (parse_trajectories.main json_loads traj_dir dataset output
       traj_dir_exists dataset_exists dataset_lines traj_files)
  = Some records ->
  r ∈ records ->
  parse_trajectories.load_jsonl json_loads dataset dataset_lines
  = Ok (pre ++ PDict d :: post) ->
  dict_get d "instance_id" = PStr (parse_trajectories.instance_id r) ->
  Forall (other_id (parse_trajectories.instance_id r)) post ->
  meta_data r = build_meta d.
Proof.
  unfold parse_trajectories.main.
  destruct (negb traj_dir_exists); [done|].
  destruct (negb dataset_exists); [done|].
  intros Hwritten Hr Hload Hid Hpost. rewrite Hload in Hwritten.
  cbn [bind] in Hwritten.
  destruct (bench_index (pre ++ PDict d :: post) ∅) as [bench_data|e]
    eqn:Hindex; [|done].
  pose proof (bench_index_last _ _ _ _ _ _ Hindex Hid Hpost) as Hlast.
  destruct traj_files as [|f files]; [done|].
  destruct (convert_files_new json_loads bench_data (f :: files) [] 0 [])
    as (new & Hout & _ & Hall).
  assert (records = new) as ->.
  { destruct (convert_files json_loads bench_data (f :: files) [] 0 [])
      as [[[out missing_payload] err] [e|]]; cbn in Hout; subst out;
      by injection Hwritten as <-. }
  apply (proj1 (Forall_forall _ _) Hall) in Hr as (_ & d' & Hd' & ->).
  rewrite Hlast in Hd'. by injection Hd' as <-.
Qed.

Lemma last_dataset_record_wins_witness :
  meta_data ex_record_x1
  = build_meta [("instance_id", PStr "x1"); ("repo", PStr "org/repo");
                ("difficulty", PInt 3)].
Proof.
  apply (last_dataset_record_wins json.loads "trajs" "data.jsonl" "out.jsonl"
           true true ex_dataset_twice [ex_traj_x1; ex_traj_y2] [ex_record_x1]
           ex_record_x1
           [PDict [("instance_id", PStr "x1"); ("repo", PStr "org/old")]] []).
  - vm_compute. reflexivity.
  - apply list_elem_of_here.
  - vm_compute. reflexivity.
  - reflexivity.
  - apply Forall_nil_2.
Defined.

(** X26. A run of the Trajectory Converter that exits with code 0 has
    written one record for every trajectory file whose stem is an
    identifier of the dataset and whose text decodes, in the order of the
    files; it names every file of the dataset it could not decode, then
    counts the records without a payload when there is one. *)
Theorem successful_run_covers_every_trajectory
  (json_loads : string -> result pyval)
  (traj_dir dataset output : string) (traj_dir_exists dataset_exists : bool)
  (dataset_lines : list string) (traj_files : list traj_file) :
  let run := parse_trajectories.main json_loads traj_dir dataset output
               traj_dir_exists dataset_exists dataset_lines traj_files in
  parse_trajectories.exit run = Ok 0%Z ->
  exists data bench_data records,
    parse_trajectories.load_jsonl json_loads dataset dataset_lines = Ok data
    /\ bench_index data ∅ = Ok bench_data
    /\ parse_trajectories.written run = Some records
    /\ map parse_trajectories.instance_id records
       = map traj_stem (List.filter (usable json_loads bench_data) traj_files)
    /\ parse_trajectories.stdout run = ["Wrote loc outputs to " +:+ output]
    /\ parse_trajectories.stderr run
       = map skipped_message
             (List.filter (unreadable json_loads bench_data) traj_files)
         ++ payload_warning
              (length (List.filter
                         (fun f => usable json_loads bench_data f
                                   && without_payload json_loads f)
                         traj_files)).
Proof.
  cbv zeta. unfold parse_trajectories.main.
  destruct (negb traj_dir_exists); [done|].
  destruct (negb dataset_exists); [done|].
  destruct (parse_trajectories.load_jsonl json_loads dataset dataset_lines)
    as [data|e]; [|done].
  cbn [bind].
  destruct (bench_index data ∅) as [bench_data|e] eqn:Hindex; [|done].
  destruct traj_files as [|f files]; [done|].
  destruct (convert_files json_loads bench_data (f :: files) [] 0 [])
    as [[[out missing_payload] err] [e|]] eqn:Hfiles; [done|].
  intros _. apply convert_files_done in Hfiles as (Hout & -> & ->).
  exists data, bench_data, out. repeat split; try done.
  cbn [parse_trajectories.stderr app]. f_equal.
  rewrite Z.add_0_l. unfold payload_warning.
  destruct (length _) as [|n]; [done|].
  by destruct (Z.eqb_spec (Z.of_nat (S n)) 0); [lia|].
Qed.

Lemma successful_run_covers_every_trajectory_witness :
  exists data bench_data records,
    parse_trajectories.load_jsonl json.loads "data.jsonl" ex_dataset = Ok data
    /\ bench_index data ∅ = Ok bench_data
    /\ parse_trajectories.written
         (parse_trajectories.main json.loads "trajs" "data.jsonl" "out.jsonl"
            true true ex_dataset [ex_traj_x1; ex_traj_y2])
       = Some records
    /\ map parse_trajectories.instance_id records
       = map traj_stem
           (List.filter (usable json.loads bench_data) [ex_traj_x1; ex_traj_y2])
    /\ parse_trajectories.stdout
         (parse_trajectories.main json.loads "trajs" "data.jsonl" "out.jsonl"
            true true ex_dataset [ex_traj_x1; ex_traj_y2])
       = ["Wrote loc outputs to " +:+ "out.jsonl"]
    /\ parse_trajectories.stderr
         (parse_trajectories.main json.loads "trajs" "data.jsonl" "out.jsonl"
            true true ex_dataset [ex_traj_x1; ex_traj_y2])
       = map skipped_message
             (List.filter (unreadable json.loads bench_data)
                          [ex_traj_x1; ex_traj_y2])
         ++ payload_warning
              (length (List.filter
                         (fun f => usable json.loads bench_data f
                                   && without_payload json.loads f)
                         [ex_traj_x1; ex_traj_y2])).
Proof.
  apply (successful_run_covers_every_trajectory json.loads "trajs" "data.jsonl"
           "out.jsonl" true true ex_dataset [ex_traj_x1; ex_traj_y2]).
  vm_compute. reflexivity.
Defined.
